(** * The WebSocket bridge of the Index wrapper server

    A shallow embedding of the per-connection bridge of
    [src/server.js] (the body of [wss.on('connection', ...)], lines
    86-158): the closure variables [gatewaySocket], [buffer] and [alive],
    the functions [connectGateway] and [sendStatus], and the listeners
    attached to the browser socket and to every gateway socket.

    The bridge is event driven.  Its closure state is a record, every
    listener is a function on that record, and the [ws] package, the timer
    queue and the clock form the environment: they decide which event
    comes next.  What the listeners do to the outside world (frames sent,
    sockets constructed and closed, timers set) is appended to a log. *)

From stdpp Require Import base numbers list strings.
From Stdlib Require Import Ascii DecimalString.

Local Open Scope Z_scope.
Local Open Scope string_scope.
Local Open Scope list_scope.

(** ** The [ws] package, as far as the bridge uses it *)

Module Ws.

(** [WebSocket.CONNECTING], [OPEN], [CLOSING] and [CLOSED]. *)
Inductive ReadyState := CONNECTING | OPEN | CLOSING | CLOSED.

#[global] Instance ReadyState_eq_dec : EqDecision ReadyState.
Proof. solve_decision. Defined.

(** A socket object.  [fuse] belongs to the environment: [Some k] says
    that the transport gives way after [k] more calls of [send], at
    which point [readyState] stops being [OPEN]; [None] says that
    sending never changes [readyState]. *)
Record WebSocket := mkWebSocket {
  readyState : ReadyState;
  fuse : option nat
}.

(** [new WebSocket(url, opts)] when the constructor returns. *)
Definition fresh : WebSocket := mkWebSocket CONNECTING None.

Definition set_readyState (r : ReadyState) (w : WebSocket) : WebSocket :=
  mkWebSocket r (fuse w).

(** [ws.send(data)]: the frame goes out on an open socket, and the fuse
    burns down; on any other socket the state stays as it is. *)
Definition send (w : WebSocket) : WebSocket :=
  match readyState w, fuse w with
  | OPEN, Some (S k) =>
      mkWebSocket (match k with 0%nat => CLOSING | S _ => OPEN end) (Some k)
  | _, _ => w
  end.

(** [ws.close()]: nothing on a closed socket; a connecting socket has
    its handshake aborted and an open one starts the closing handshake,
    both of which leave it [CLOSING] until the close event. *)
Definition close (w : WebSocket) : WebSocket :=
  match readyState w with
  | CLOSED => w
  | _ => set_readyState CLOSING w
  end.

End Ws.

Import Ws.

(** ** [JSON.stringify] on flat objects of strings and integers *)

Module Json.

Inductive Value := JString (s : string) | JNumber (n : Z).

Definition Object := list (string * Value).

Definition dquote : ascii := ascii_of_nat 34.
Definition backslash : ascii := ascii_of_nat 92.

Definition hex_digit (n : nat) : ascii :=
  match n with
  | 0 => "0" | 1 => "1" | 2 => "2" | 3 => "3" | 4 => "4" | 5 => "5"
  | 6 => "6" | 7 => "7" | 8 => "8" | 9 => "9" | 10 => "a" | 11 => "b"
  | 12 => "c" | 13 => "d" | 14 => "e" | _ => "f"
  end%nat%char.

(** One character of a quoted string. *)
Definition escape (c : ascii) : string :=
  let n := nat_of_ascii c in
  if decide (n = 34)%nat then String backslash (String dquote "")
  else if decide (n = 92)%nat then String backslash (String backslash "")
  else if decide (n = 8)%nat then String backslash "b"
  else if decide (n = 9)%nat then String backslash "t"
  else if decide (n = 10)%nat then String backslash "n"
  else if decide (n = 12)%nat then String backslash "f"
  else if decide (n = 13)%nat then String backslash "r"
  else if decide (n < 32)%nat then
    String backslash
      (String "u" (String "0" (String "0"
        (String (hex_digit (n / 16)) (String (hex_digit (n mod 16)) "")))))
  else String c "".

Fixpoint escape_all (s : string) : string :=
  match s with
  | EmptyString => ""
  | String c s' => escape c +:+ escape_all s'
  end.

Definition quote (s : string) : string :=
  String dquote (escape_all s +:+ String dquote "").

Definition stringify_value (v : Value) : string :=
  match v with
  | JString s => quote s
  | JNumber n => NilZero.string_of_int (Z.to_int n)
  end.

Fixpoint stringify_fields (fs : Object) : string :=
  match fs with
  | [] => ""
  | [(k, v)] => quote k +:+ ":" +:+ stringify_value v
  | (k, v) :: fs' =>
      quote k +:+ ":" +:+ stringify_value v +:+ "," +:+ stringify_fields fs'
  end.

Definition stringify (o : Object) : string :=
  "{" +:+ stringify_fields o +:+ "}".

End Json.

Import Json.

(** ** The closure state of one browser connection *)

(** A pending [setTimeout(connectGateway, delay)]: when it was set and
    with which delay. *)
Record Timer := mkTimer { set_at : Z; delay : Z }.

(** What the listeners do to the outside world. *)
Inductive Effect :=
| ClientStatus (payload : string)     (* clientSocket.send(JSON.stringify ..), line 133 *)
| ClientRelay (data : string)         (* clientSocket.send(data), line 116 *)
| GatewaySend (sock : nat) (data : string)   (* gatewaySocket.send, lines 109 and 145 *)
| GatewayNew (sock : nat)             (* new WebSocket(GATEWAY_WS, ..), line 95 *)
| GatewayShut (sock : nat)            (* gatewaySocket?.close(), line 154 *)
| SetTimeout (ms : Z).                (* setTimeout(connectGateway, 3000), line 122 *)

#[global] Instance Effect_eq_dec : EqDecision Effect.
Proof. solve_decision. Defined.

Record Bridge := mkBridge {
  clientSocket : ReadyState;      (* clientSocket.readyState *)
  gatewaySocket : option nat;     (* let gatewaySocket = null *)
  buffer : list string;           (* let buffer = [] *)
  alive : bool;                   (* let alive = true *)
  sockets : list WebSocket;       (* every gateway socket constructed so far *)
  timers : list Timer;            (* timers set and not yet run *)
  now : Z;                        (* Date.now() *)
  log : list Effect
}.

Definition emit (e : Effect) (st : Bridge) : Bridge :=
  mkBridge (clientSocket st) (gatewaySocket st) (buffer st) (alive st)
           (sockets st) (timers st) (now st) (log st ++ [e]).

Definition set_clientSocket (r : ReadyState) (st : Bridge) : Bridge :=
  mkBridge r (gatewaySocket st) (buffer st) (alive st)
           (sockets st) (timers st) (now st) (log st).

Definition set_gatewaySocket (g : option nat) (st : Bridge) : Bridge :=
  mkBridge (clientSocket st) g (buffer st) (alive st)
           (sockets st) (timers st) (now st) (log st).

Definition set_buffer (b : list string) (st : Bridge) : Bridge :=
  mkBridge (clientSocket st) (gatewaySocket st) b (alive st)
           (sockets st) (timers st) (now st) (log st).

Definition set_alive (a : bool) (st : Bridge) : Bridge :=
  mkBridge (clientSocket st) (gatewaySocket st) (buffer st) a
           (sockets st) (timers st) (now st) (log st).

Definition set_sockets (ws : list WebSocket) (st : Bridge) : Bridge :=
  mkBridge (clientSocket st) (gatewaySocket st) (buffer st) (alive st)
           ws (timers st) (now st) (log st).

Definition set_timers (ts : list Timer) (st : Bridge) : Bridge :=
  mkBridge (clientSocket st) (gatewaySocket st) (buffer st) (alive st)
           (sockets st) ts (now st) (log st).

Definition set_now (t : Z) (st : Bridge) : Bridge :=
  mkBridge (clientSocket st) (gatewaySocket st) (buffer st) (alive st)
           (sockets st) (timers st) t (log st).

(** [sockets[s]] changed in place by [f]; nothing for an unknown [s]. *)
Definition on_socket (s : nat) (f : WebSocket -> WebSocket) (st : Bridge) : Bridge :=
  set_sockets (alter f s (sockets st)) st.

(** [sock.readyState === WebSocket.OPEN] for socket number [s]. *)
Definition socket_open (s : nat) (st : Bridge) : bool :=
  match sockets st !! s with
  | Some w => bool_decide (readyState w = OPEN)
  | None => false
  end.

(** [gatewaySocket?.readyState === WebSocket.OPEN]. *)
Definition gateway_open (st : Bridge) : bool :=
  match gatewaySocket st with
  | Some g => socket_open g st
  | None => false
  end.

(** [gatewaySocket.send(data)]. *)
Definition gateway_send (data : string) (st : Bridge) : Bridge :=
  match gatewaySocket st with
  | Some g => emit (GatewaySend g data) (on_socket g Ws.send st)
  | None => st
  end.

(** The reconnect delay of line 122. *)
Definition RECONNECT_DELAY : Z := 3000.

(** The literals handed to [sendStatus]. *)
Definition STATUS_TYPE : string := "__index_status".
Definition CONNECTED : string := "connected".
Definition DISCONNECTED : string := "disconnected".
Definition ERROR : string := "error".

(** The object literal of lines 133-138. *)
Definition status_object (state message : string) (ts : Z) : Json.Object :=
  [("type", JString STATUS_TYPE); ("state", JString state);
   ("message", JString message); ("ts", JNumber ts)].

(** Lines 131-140. *)
Definition sendStatus (state message : string) (st : Bridge) : Bridge :=
  if bool_decide (clientSocket st = OPEN)
  then emit (ClientStatus (Json.stringify (status_object state message (now st)))) st
  else st.

(** The outcome of [new WebSocket(..)] at line 95: the constructor
    returns, or throws an error [e] with the given [e.message]. *)
Inductive Ctor := Constructed | Throws (message : string).

#[global] Instance Ctor_eq_dec : EqDecision Ctor.
Proof. solve_decision. Defined.

(** ** The browser app: helpers, gateway log and command palette *)

Module App.

(** [s.replace(/c/g, r)] for a pattern [c] of one character. *)
Fixpoint replace_all (c : ascii) (r : string) (s : string) : string :=
  match s with
  | EmptyString => ""
  | String a s' => (if Ascii.eqb a c then r else String a "") +:+ replace_all c r s'
  end.

(** [esc], lines 714-719, on a string. *)
Definition esc (s : string) : string :=
  replace_all ">" "&gt;" (replace_all "<" "&lt;" (replace_all "&" "&amp;" s)).

(** What [esc] does to one character when it is done in one pass. *)
Definition esc_char (a : ascii) : string :=
  if Ascii.eqb a "&" then "&amp;"
  else if Ascii.eqb a "<" then "&lt;"
  else if Ascii.eqb a ">" then "&gt;"
  else String a "".

(** Whether the character [c] occurs in [s]. *)
Fixpoint has_char (c : ascii) (s : string) : bool :=
  match s with
  | EmptyString => false
  | String a s' => Ascii.eqb a c || has_char c s'
  end.

(** ['/api' + path], the address [api.get] and [api.post] fetch
    (lines 23-36). *)
Definition api_url (path : string) : string := "/api" +:+ path.

(** A child of the element [gatewayLog]. *)
Record LogLine := mkLogLine { className : string; textContent : string }.

(** The number of lines [log] keeps. *)
Definition LOG_LINES : nat := 80.

(** [while (logEl.children.length > 80) logEl.removeChild(logEl.firstChild)],
    line 700; the loop runs at most once per child. *)
Fixpoint trim (fuel : nat) (children : list LogLine) : list LogLine :=
  match fuel with
  | O => children
  | S fuel' =>
      if (LOG_LINES <? length children)%nat then trim fuel' (tail children)
      else children
  end.

(** [log(msg, type)], lines 692-701, on the children of [gatewayLog];
    [stamp] is what [now(true)] prints. *)
Definition log (stamp msg type : string) (children : list LogLine) : list LogLine :=
  let line := mkLogLine ("log-line " +:+ type) (stamp +:+ " " +:+ msg) in
  let children' := children ++ [line] in
  trim (length children') children'.

(** The line [log] appends for a call [(stamp, msg, type)]. *)
Definition line_of (call : string * string * string) : LogLine :=
  mkLogLine ("log-line " +:+ call.2) (call.1.1 +:+ " " +:+ call.1.2).

(** A sequence of calls of [log]. *)
Definition logs (calls : list (string * string * string))
    (children : list LogLine) : list LogLine :=
  fold_left (fun children call => log call.1.1 call.1.2 call.2 children) calls children.

(** An entry of [COMMANDS], lines 574-584. *)
Record Command := mkCommand { cmd : string; desc : string }.

(** The command palette: the variable [cpFocused], the commands of the
    [.cp-item] elements in the list, and whether the palette is open. *)
Record Palette := mkPalette {
  cpFocused : Z;
  items : list Command;
  isOpen : bool
}.

(** [renderCmdList(cmds)], lines 610-621. *)
Definition renderCmdList (cmds : list Command) (p : Palette) : Palette :=
  mkPalette 0 cmds (isOpen p).

(** [closeCmdPalette()], lines 598-600. *)
Definition closeCmdPalette (p : Palette) : Palette :=
  mkPalette (cpFocused p) (items p) false.

(** [items[i]]: nothing outside the list. *)
Definition item_at (i : Z) (l : list Command) : option Command :=
  if (i <? 0)%Z then None else l !! Z.to_nat i.

(** [cpKey(e)], lines 623-637, for [e.key]; the second component is the
    command the click listener of line 618 hands to [execCommand]. *)
Definition cpKey (key : string) (p : Palette) : Palette * option string :=
  let n := Z.of_nat (length (items p)) in
  if String.eqb key "ArrowDown"
  then (mkPalette (Z.min (cpFocused p + 1) (n - 1)) (items p) (isOpen p), None)
  else if String.eqb key "ArrowUp"
  then (mkPalette (Z.max (cpFocused p - 1) 0) (items p) (isOpen p), None)
  else if String.eqb key "Enter"
  then match item_at (cpFocused p) (items p) with
       | Some c => (closeCmdPalette p, Some (cmd c))
       | None => (p, None)
       end
  else if String.eqb key "Escape" then (closeCmdPalette p, None)
  else (p, None).

(** The palette after a sequence of key strokes. *)
Definition cpKeys (keys : list string) (p : Palette) : Palette :=
  fold_left (fun p key => (cpKey key p).1) keys p.

End App.

Section Connection.

(** [process.env.GATEWAY_HOST || '127.0.0.1'] and
    [process.env.GATEWAY_PORT || 18789], as they print in a template. *)
Variable GATEWAY_HOST GATEWAY_PORT : string.

Definition GATEWAY_WS : string := "ws://" +:+ GATEWAY_HOST +:+ ":" +:+ GATEWAY_PORT.

(** Lines 93-101; the listeners of lines 103-128 are the [on..]
    functions below. *)
Definition connectGateway (c : Ctor) (st : Bridge) : Bridge :=
  match c with
  | Throws message => sendStatus ERROR ("Cannot create socket: " +:+ message) st
  | Constructed =>
      let s := length (sockets st) in
      emit (GatewayNew s)
        (set_gatewaySocket (Some s) (set_sockets (sockets st ++ [Ws.fresh]) st))
  end.

(** One callback of [buffer.forEach], lines 107-110. *)
Definition flush_one (st : Bridge) (msg : string) : Bridge :=
  if gateway_open st then gateway_send msg st else st.

(** [gatewaySocket.on('open', ..)], lines 103-112. *)
Definition onGatewayOpen (st : Bridge) : Bridge :=
  let st1 := sendStatus CONNECTED ("Gateway live at " +:+ GATEWAY_WS) st in
  let st2 := fold_left flush_one (buffer st1) st1 in
  set_buffer [] st2.

(** [gatewaySocket.on('message', ..)], lines 114-117. *)
Definition onGatewayMessage (data : string) (st : Bridge) : Bridge :=
  if bool_decide (clientSocket st = OPEN) then emit (ClientRelay data) st else st.

(** [gatewaySocket.on('close', ..)], lines 119-123. *)
Definition onGatewayClose (st : Bridge) : Bridge :=
  let st1 := sendStatus DISCONNECTED "Gateway closed — retrying in 3s" st in
  if alive st1
  then emit (SetTimeout RECONNECT_DELAY)
         (set_timers (timers st1 ++ [mkTimer (now st1) RECONNECT_DELAY]) st1)
  else st1.

(** [gatewaySocket.on('error', ..)], lines 125-128. *)
Definition onGatewayError (message : string) (st : Bridge) : Bridge :=
  sendStatus ERROR message st.

(** [clientSocket.on('message', ..)], lines 143-149. *)
Definition onClientMessage (data : string) (st : Bridge) : Bridge :=
  if gateway_open st then gateway_send data st
  else set_buffer (buffer st ++ [data]) st.

(** [clientSocket.on('close', ..)], lines 151-155. *)
Definition onClientClose (st : Bridge) : Bridge :=
  let st1 := set_alive false st in
  match gatewaySocket st1 with
  | Some g => emit (GatewayShut g) (on_socket g Ws.close st1)
  | None => st1
  end.

(** The body of [wss.on('connection', ..)], lines 86-158, for a browser
    accepted at time [t0]. *)
Definition onConnection (t0 : Z) (c : Ctor) : Bridge :=
  connectGateway c (mkBridge OPEN None [] true [] [] t0 []).


(** ** The environment: events, and when they can happen *)

(** Gateway sockets are numbered in the order of their construction.
    [GatewayOpen s brk] carries the fuse the socket opens with, and
    [Timeout c] the outcome of the constructor call the timer leads to. *)
Inductive Event :=
| ClientMessage (data : string)    (* clientSocket emits 'message' *)
| ClientClosing                    (* the browser socket starts closing: no listener *)
| ClientClose                      (* clientSocket emits 'close' *)
| GatewayOpen (s : nat) (brk : option nat)   (* socket s emits 'open' *)
| GatewayMessage (s : nat) (data : string)   (* socket s emits 'message' *)
| GatewayClosing (s : nat)         (* socket s starts closing: no listener *)
| GatewayError (s : nat) (message : string)  (* socket s emits 'error' *)
| GatewayClose (s : nat)           (* socket s emits 'close' *)
| Timeout (c : Ctor)               (* the oldest pending timer runs connectGateway *)
| Tick (d : Z).                    (* the clock advances by d milliseconds *)

#[global] Instance Event_eq_dec : EqDecision Event.
Proof. solve_decision. Defined.

(** [sockets[s].readyState], [CLOSED] for a socket never constructed. *)
Definition socket_state (s : nat) (st : Bridge) : ReadyState :=
  match sockets st !! s with
  | Some w => readyState w
  | None => CLOSED
  end.

(** What [ws], the timer queue and the clock allow in a state: a socket
    opens once, out of [CONNECTING], and is [OPEN] when its listener
    starts; it emits nothing after its close event; a timer runs no
    earlier than its delay after it was set; the clock does not go
    back. *)
Definition enabled (st : Bridge) (e : Event) : bool :=
  match e with
  | ClientMessage _ => bool_decide (clientSocket st ≠ CLOSED)
  | ClientClosing => bool_decide (clientSocket st = OPEN)
  | ClientClose => bool_decide (clientSocket st ≠ CLOSED)
  | GatewayOpen s brk =>
      bool_decide (socket_state s st = CONNECTING) && bool_decide (brk ≠ Some 0%nat)
  | GatewayMessage s _ =>
      bool_decide (socket_state s st = OPEN) || bool_decide (socket_state s st = CLOSING)
  | GatewayClosing s => bool_decide (socket_state s st = OPEN)
  | GatewayError s _ => bool_decide (socket_state s st ≠ CLOSED)
  | GatewayClose s => bool_decide (socket_state s st ≠ CLOSED)
  | Timeout _ =>
      match timers st with
      | t :: _ => bool_decide (set_at t + delay t <= now st)
      | [] => false
      end
  | Tick d => bool_decide (0 <= d)
  end.

(** The environment's part of an event (the new [readyState], the
    timer leaving the queue, the clock) followed by the listener.  [ws]
    sets [readyState] before it emits: [OPEN] before 'open', [CLOSING]
    before 'error', [CLOSED] before 'close'. *)
Definition handle (e : Event) (st : Bridge) : Bridge :=
  match e with
  | ClientMessage data => onClientMessage data st
  | ClientClosing => set_clientSocket CLOSING st
  | ClientClose => onClientClose (set_clientSocket CLOSED st)
  | GatewayOpen s brk =>
      onGatewayOpen
        (on_socket s (fun _ => mkWebSocket OPEN brk) st)
  | GatewayMessage _ data => onGatewayMessage data st
  | GatewayClosing s => on_socket s (set_readyState CLOSING) st
  | GatewayError s message =>
      onGatewayError message (on_socket s (set_readyState CLOSING) st)
  | GatewayClose s => onGatewayClose (on_socket s (set_readyState CLOSED) st)
  | Timeout c => connectGateway c (set_timers (tail (timers st)) st)
  | Tick d => set_now (now st + d) st
  end.

(** A run: [None] as soon as an event is not enabled. *)
Fixpoint run (st : Bridge) (evs : list Event) : option Bridge :=
  match evs with
  | [] => Some st
  | e :: evs' => if enabled st e then run (handle e st) evs' else None
  end.

(** The bridge of a browser accepted at [t0], after [evs]. *)
Definition bridge (t0 : Z) (c : Ctor) (evs : list Event) : option Bridge :=
  run (onConnection t0 c) evs.


(** ** Observations on logs and event sequences *)

(** The calls of [gatewaySocket.send], with the socket they went to. *)
Definition gateway_sends (l : list Effect) : list (nat * string) :=
  omap (fun e => match e with GatewaySend s d => Some (s, d) | _ => None end) l.

(** The frames handed to [gatewaySocket.send]. *)
Definition gateway_sent (l : list Effect) : list string :=
  (gateway_sends l).*2.

(** The frames relayed to the browser (line 116). *)
Definition client_relayed (l : list Effect) : list string :=
  omap (fun e => match e with ClientRelay d => Some d | _ => None end) l.

(** The status notifications sent to the browser (line 133). *)
Definition client_statuses (l : list Effect) : list string :=
  omap (fun e => match e with ClientStatus p => Some p | _ => None end) l.

(** The delays of the timers set (line 122). *)
Definition timeouts_set (l : list Effect) : list Z :=
  omap (fun e => match e with SetTimeout ms => Some ms | _ => None end) l.

(** The frames the browser sent. *)
Definition client_frames (evs : list Event) : list string :=
  omap (fun e => match e with ClientMessage d => Some d | _ => None end) evs.

(** The frames the gateway sent. *)
Definition gateway_frames (evs : list Event) : list string :=
  omap (fun e => match e with GatewayMessage _ d => Some d | _ => None end) evs.

Definition is_open_event (e : Event) : bool :=
  match e with GatewayOpen _ _ => true | _ => false end.

Definition is_close_event (e : Event) : bool :=
  match e with GatewayClose _ => true | _ => false end.

Definition is_timeout_event (e : Event) : bool :=
  match e with Timeout _ => true | _ => false end.

Definition leaves_client_open (e : Event) : bool :=
  match e with ClientClosing | ClientClose => false | _ => true end.

(** The events up to the moment the browser socket stops being open. *)
Fixpoint while_client_open (evs : list Event) : list Event :=
  match evs with
  | [] => []
  | e :: evs' => if leaves_client_open e then e :: while_client_open evs' else []
  end.

(** No socket gives way under [send] in the listener of its open event. *)
Definition opens_steady (evs : list Event) : Prop :=
  ∀ s brk, GatewayOpen s brk ∈ evs → brk = None.

(** The same, computed. *)
Definition steady (evs : list Event) : bool :=
  forallb (fun e => match e with GatewayOpen _ (Some _) => false | _ => true end) evs.

(** No socket opens in [evs]. *)
Definition no_open_event (evs : list Event) : bool :=
  forallb (fun e => negb (is_open_event e)) evs.

(** The clock after [evs], started at [t]. *)
Definition clock (t : Z) (evs : list Event) : Z :=
  fold_left (fun t e => match e with Tick d => t + d | _ => t end) evs t.

(** The clock readings at which the events selected by [p] happen. *)
Fixpoint times (p : Event -> bool) (t : Z) (evs : list Event) : list Z :=
  match evs with
  | [] => []
  | e :: evs' =>
      (if p e then [t] else [])
        ++ times p (match e with Tick d => t + d | _ => t end) evs'
  end.

(** ** The invariant of a bridge: one chain of sockets and timers *)

Record Inv (st : Bridge) : Prop := mkInv {
  inv_others_closed : ∀ i, gatewaySocket st ≠ Some i → socket_state i st = CLOSED;
  inv_timer_idle : timers st ≠ [] → ∀ i, socket_state i st = CLOSED;
  inv_one_timer : (length (timers st) ≤ 1)%nat
}.

(** ** Observations used in the proofs *)

(** How [send] may move a [readyState]. *)
Definition send_moves (a b : ReadyState) : Prop := b = a ∨ (a = OPEN ∧ b = CLOSING).

(** [st] with socket [g] replaced by [w] and [l] appended to the log. *)
Definition with_socket_log (g : nat) (w : WebSocket) (l : list Effect)
    (st : Bridge) : Bridge :=
  mkBridge (clientSocket st) (gatewaySocket st) (buffer st) (alive st)
           (<[g:=w]> (sockets st)) (timers st) (now st) (log st ++ l).

(** What a call of [sendStatus] sends: one notification to an open
    browser socket, nothing otherwise. *)
Definition status_effect (state message : string) (st : Bridge) : list Effect :=
  if bool_decide (clientSocket st = OPEN)
  then [ClientStatus (Json.stringify (status_object state message (now st)))]
  else [].

(** With every frame sent as soon as a socket is open, an open socket
    means an empty buffer. *)
Definition flushed (st : Bridge) : Prop := gateway_open st = true → buffer st = [].

(** The states [sendStatus] is called with (lines 99, 105, 121, 127). *)
Definition STATES : list string := [CONNECTED; DISCONNECTED; ERROR].

(** A payload with the shape of lines 133-138, stamped between [lo] and
    [hi]. *)
Definition status_shaped (lo hi : Z) (p : string) : Prop :=
  ∃ state message ts,
    p = Json.stringify
          [("type", JString "__index_status"); ("state", JString state);
           ("message", JString message); ("ts", JNumber ts)]
    ∧ state ∈ STATES ∧ lo <= ts <= hi.

(** A timer whose call of [connectGateway] gets a socket from the
    constructor of line 95. *)
Definition is_constructing_timeout (e : Event) : bool :=
  match e with Timeout Constructed => true | _ => false end.

(** The sockets the call of [connectGateway] at line 157 constructs. *)
Definition first_sockets (c : Ctor) : nat :=
  match c with Constructed => 1 | Throws _ => 0 end.

(** How many timers run [connectGateway] in [evs]. *)
Definition count_timeouts (evs : list Event) : nat :=
  length (List.filter is_timeout_event evs).

(** The sockets constructed (line 95). *)
Definition sockets_made (l : list Effect) : list nat :=
  omap (fun e => match e with GatewayNew s => Some s | _ => None end) l.

(** ** Runs of a bridge on the default gateway address *)

(** The gateway address the server falls back to (lines 16-17). *)
Definition HOST : string := "127.0.0.1".
Definition PORT : string := "18789".

(** The state of a run that goes through. *)
Definition final (o : option Bridge) : Bridge :=
  default (mkBridge CLOSED None [] false [] [] 0 []) o.

(** A browser connects at time 0, sends a frame while the first gateway
    socket is still connecting, and the socket opens 50 ms later. *)
Definition early_ping : list Event := [ClientMessage "ping"; Tick 50].

(** The gateway socket closes and the browser closes before the
    reconnect timer is due; the timer runs all the same and the socket
    it constructs opens. *)
Definition orphan : list Event :=
  [GatewayOpen 0 None; GatewayClose 0; ClientMessage "late"; ClientClose;
   Tick 3000; Timeout Constructed; GatewayOpen 1 None].

(** ** The REST proxy, lines 29-67 *)

(** Line 19. *)
Definition GATEWAY_HTTP : string := "http://" +:+ GATEWAY_HOST +:+ ":" +:+ GATEWAY_PORT.

(** [s.includes(needle)]. *)
Fixpoint includes (needle s : string) : bool :=
  String.prefix needle s
  || match s with
     | EmptyString => false
     | String _ s' => includes needle s'
     end.

(** [s.slice(n)]. *)
Fixpoint string_drop (n : nat) (s : string) : string :=
  match n, s with
  | S n', String _ s' => string_drop n' s'
  | _, _ => s
  end.

(** [req.url.replace(/^\/api/, '')], line 33. *)
Definition strip_api (url : string) : string :=
  if String.prefix "/api" url then string_drop 4 url else url.

(** [['POST','PUT','PATCH'].includes(method)], line 45. *)
Definition has_body (method : string) : bool :=
  String.eqb method "POST" || String.eqb method "PUT" || String.eqb method "PATCH".

Section Proxy.

(** Parsed JSON ([req.body], [await upstream.json()]) and
    [JSON.stringify] on it. *)
Variable Doc : Type.
Variable JSON_stringify : Doc → string.

(** What the handler reads of [req]. *)
Record Request := mkRequest {
  method : string;                  (* req.method *)
  url : string;                     (* req.url *)
  authorization : option string;    (* req.headers.authorization *)
  body : Doc                        (* req.body *)
}.

(** The arguments of [fetch], lines 37-48. *)
Record FetchCall := mkFetchCall {
  fetch_url : string;
  fetch_method : string;
  fetch_headers : list (string * string);
  fetch_body : option string
}.

(** What [fetch] and the reading of the response come to: [fetch]
    rejects, or it resolves with a status and a content type, and
    [json] and [text] are what [upstream.json()] and [upstream.text()]
    resolve with, [None] when they reject. *)
Inductive Upstream :=
| FetchRejects
| Responds (status : Z) (contentType : option string)
           (json : option Doc) (text : option string).

(** What the handler sends back. *)
Inductive Reply :=
| ReplyJson (status : Z) (data : Doc)         (* res.status(..); res.json(data) *)
| ReplyText (status : Z) (text : string)      (* res.status(..); res.type('text').send(text) *)
| ReplyError (status : Z) (error message hint : string).   (* lines 61-65 *)

(** Lines 33-48: the call of [fetch]. *)
Definition proxy_fetch (req : Request) : FetchCall :=
  mkFetchCall
    (GATEWAY_HTTP +:+ strip_api (url req))
    (method req)
    (("content-type", "application/json")
       :: match authorization req with
          | Some a => if String.eqb a "" then [] else [("authorization", a)]
          | None => []
          end)
    (if has_body (method req) then Some (JSON_stringify (body req)) else None).

(** The [catch] branch, lines 60-66. *)
Definition gateway_unreachable : Reply :=
  ReplyError 502 "gateway_unreachable"
    ("Cannot reach OpenClaw Gateway at " +:+ GATEWAY_HTTP)
    "Run: openclaw gateway --port 18789".

(** Lines 50-66: the reply to what came back. *)
Definition proxy_reply (up : Upstream) : Reply :=
  match up with
  | FetchRejects => gateway_unreachable
  | Responds status contentType json text =>
      let ct := match contentType with
                | Some ct => ct      (* upstream.headers.get('content-type') || '' *)
                | None => ""
                end in
      if includes "application/json" ct
      then match json with
           | Some data => ReplyJson status data
           | None => gateway_unreachable
           end
      else match text with
           | Some t => ReplyText status t
           | None => gateway_unreachable
           end
  end.

(** The handler of [app.all('/api/*', ..)], lines 32-67, against a
    gateway that answers the call [c] with [gateway c]. *)
Definition apiProxy (gateway : FetchCall → Upstream) (req : Request) : Reply :=
  proxy_reply (gateway (proxy_fetch req)).

(** The status of a reply. *)
Definition reply_status (r : Reply) : Z :=
  match r with
  | ReplyJson status _ | ReplyText status _ | ReplyError status _ _ _ => status
  end.

End Proxy.

Arguments mkRequest {Doc}.
Arguments method {Doc}.
Arguments url {Doc}.
Arguments authorization {Doc}.
Arguments body {Doc}.
Arguments FetchRejects {Doc}.
Arguments Responds {Doc}.
Arguments ReplyJson {Doc}.
Arguments ReplyText {Doc}.
Arguments ReplyError {Doc}.
Arguments proxy_fetch {Doc}.
Arguments proxy_reply {Doc}.
Arguments apiProxy {Doc}.
Arguments reply_status {Doc}.

(** The calls of [gatewaySocket?.close()] (line 154). *)
Definition gateway_shuts (l : list Effect) : list nat :=
  omap (fun e => match e with GatewayShut s => Some s | _ => None end) l.

(** ** The status notifications a run calls for *)

(** The notification the listeners of an event send at clock reading
    [t]: lines 105, 121 and 127, and line 99 when the constructor throws
    in a timer. *)
Definition status_event (t : Z) (e : Event) : list string :=
  match e with
  | GatewayOpen _ _ =>
      [Json.stringify (status_object CONNECTED ("Gateway live at " +:+ GATEWAY_WS) t)]
  | GatewayError _ message => [Json.stringify (status_object ERROR message t)]
  | GatewayClose _ =>
      [Json.stringify (status_object DISCONNECTED "Gateway closed — retrying in 3s" t)]
  | Timeout (Throws message) =>
      [Json.stringify (status_object ERROR ("Cannot create socket: " +:+ message) t)]
  | _ => []
  end.

(** The notifications of a sequence of events, the clock starting at [t]. *)
Fixpoint transcript (t : Z) (evs : list Event) : list string :=
  match evs with
  | [] => []
  | e :: evs' =>
      status_event t e ++ transcript (match e with Tick d => t + d | _ => t end) evs'
  end.

(** ** The socket store *)

Lemma send_readyState w :
  readyState (Ws.send w) = readyState w
  ∨ (readyState w = OPEN ∧ readyState (Ws.send w) = CLOSING).
Proof.
  unfold Ws.send. destruct w as [[] [[|[|k]]|]]; cbn; auto.
Qed.

Lemma close_readyState w :
  readyState (Ws.close w) = CLOSED ↔ readyState w = CLOSED.
Proof. unfold Ws.close. destruct w as [[] f]; cbn; split; congruence. Qed.

Lemma socket_state_on_socket s f st i :
  socket_state i (on_socket s f st)
  = if decide (s = i)
    then match sockets st !! i with Some w => readyState (f w) | None => CLOSED end
    else socket_state i st.
Proof.
  unfold socket_state, on_socket; cbn.
  case_decide as Hs.
  - subst. rewrite list_lookup_alter_eq. by destruct (sockets st !! i).
  - by rewrite list_lookup_alter_ne.
Qed.

Lemma socket_open_state s st :
  socket_open s st = bool_decide (socket_state s st = OPEN).
Proof.
  unfold socket_open, socket_state. destruct (sockets st !! s); [done|].
  by rewrite bool_decide_eq_false_2.
Qed.

(** ** The flush loop of the open listener *)

Lemma send_moves_refl a : send_moves a a.
Proof. by left. Qed.

Lemma send_moves_trans a b c : send_moves a b → send_moves b c → send_moves a c.
Proof. unfold send_moves. intros [->|[-> ->]] [->|[? ->]]; auto; congruence. Qed.

Lemma send_moves_closed a b : send_moves a b → (b = CLOSED ↔ a = CLOSED).
Proof. unfold send_moves. intros [->|[-> ->]]; split; congruence. Qed.

Lemma gateway_send_state data st i :
  send_moves (socket_state i st) (socket_state i (gateway_send data st)).
Proof.
  unfold gateway_send. destruct (gatewaySocket st) as [g|]; [|apply send_moves_refl].
  change (socket_state i (emit _ ?x)) with (socket_state i x).
  rewrite socket_state_on_socket. case_decide; [subst|apply send_moves_refl].
  unfold socket_state. destruct (sockets st !! i) as [w|]; [|apply send_moves_refl].
  destruct (send_readyState w) as [->|[? ?]]; [by left|by right].
Qed.

Lemma gateway_send_fields data st :
  let st' := gateway_send data st in
  clientSocket st' = clientSocket st ∧ gatewaySocket st' = gatewaySocket st
  ∧ buffer st' = buffer st ∧ alive st' = alive st
  ∧ timers st' = timers st ∧ now st' = now st.
Proof. unfold gateway_send. by destruct (gatewaySocket st) eqn:E. Qed.

Lemma flush_one_state st msg i :
  send_moves (socket_state i st) (socket_state i (flush_one st msg)).
Proof.
  unfold flush_one. destruct (gateway_open st);
    [apply gateway_send_state|apply send_moves_refl].
Qed.

Lemma flush_state buf st i :
  send_moves (socket_state i st) (socket_state i (fold_left flush_one buf st)).
Proof.
  revert st. induction buf as [|msg buf IH]; intros st; cbn.
  - apply send_moves_refl.
  - eapply send_moves_trans; [apply flush_one_state|apply IH].
Qed.

(** The loop touches the socket store and the log, nothing else, and
    what it sends is taken from the buffer in order. *)
Lemma flush_fields buf st :
  let st' := fold_left flush_one buf st in
  clientSocket st' = clientSocket st ∧ gatewaySocket st' = gatewaySocket st
  ∧ buffer st' = buffer st ∧ alive st' = alive st
  ∧ timers st' = timers st ∧ now st' = now st
  ∧ ∃ more, more `sublist_of` buf
      ∧ log st' = log st
          ++ match gatewaySocket st with
             | Some g => GatewaySend g <$> more
             | None => []
             end.
Proof.
  revert st. induction buf as [|msg buf IH]; intros st; cbn.
  - repeat split; try done. exists []. split; [done|].
    destruct (gatewaySocket st); by rewrite app_nil_r.
  - specialize (IH (flush_one st msg)). cbn in IH.
    destruct IH as (-> & -> & -> & -> & -> & -> & more & Hsub & ->).
    unfold flush_one. destruct (gateway_open st) eqn:Hopen.
    + unfold gateway_open in Hopen. unfold gateway_send.
      destruct (gatewaySocket st) as [g|] eqn:Hg; [|done]. cbn. rewrite Hg.
      repeat split; try done. exists (msg :: more). split; [by constructor|].
      by rewrite <- app_assoc.
    + repeat split; try done. exists more. split; [by constructor|done].
Qed.

(** A socket that is not open when the loop starts gets nothing. *)
Lemma flush_closed buf st :
  gateway_open st = false → fold_left flush_one buf st = st.
Proof.
  intros Hopen. induction buf as [|msg buf IH]; cbn; [done|].
  unfold flush_one at 2. by rewrite Hopen.
Qed.

(** A steady open socket gets the whole buffer, in order. *)
Lemma flush_steady buf st g :
  gatewaySocket st = Some g →
  sockets st !! g = Some (mkWebSocket OPEN None) →
  fold_left flush_one buf st
  = with_socket_log g (mkWebSocket OPEN None) (GatewaySend g <$> buf) st.
Proof.
  revert st. induction buf as [|msg buf IH]; intros st Hg Hw; cbn.
  - unfold with_socket_log. rewrite app_nil_r, list_insert_id by done. by destruct st.
  - assert (flush_one st msg
            = with_socket_log g (mkWebSocket OPEN None) [GatewaySend g msg] st) as ->.
    { unfold flush_one, gateway_open, socket_open, gateway_send. rewrite Hg, Hw. cbn.
      unfold with_socket_log, emit, on_socket, set_sockets. cbn.
      f_equal. apply list_eq. intros i.
      destruct (decide (g = i)) as [->|].
      - rewrite list_lookup_alter_eq, Hw, list_lookup_insert_eq; [done|].
        by eapply lookup_lt_Some.
      - by rewrite list_lookup_alter_ne, list_lookup_insert_ne. }
    rewrite IH; cbn; [|done|].
    + unfold with_socket_log; cbn. rewrite list_insert_insert_eq, <- app_assoc. done.
    + apply list_lookup_insert_eq. by eapply lookup_lt_Some.
Qed.

Lemma flush_one_fused st g k msg :
  gatewaySocket st = Some g →
  sockets st !! g = Some (mkWebSocket OPEN (Some (S k))) →
  flush_one st msg
  = with_socket_log g
      (mkWebSocket (match k with 0%nat => CLOSING | S _ => OPEN end) (Some k))
      [GatewaySend g msg] st.
Proof.
  intros Hg Hw.
  unfold flush_one, gateway_open, socket_open, gateway_send. rewrite Hg, Hw. cbn.
  unfold with_socket_log, emit, on_socket, set_sockets. cbn.
  f_equal. apply list_eq. intros i.
  destruct (decide (g = i)) as [->|].
  - rewrite list_lookup_alter_eq, Hw, list_lookup_insert_eq; [done|].
    by eapply lookup_lt_Some.
  - by rewrite list_lookup_alter_ne, list_lookup_insert_ne.
Qed.

(** A socket whose fuse allows [S k] more frames gets the first [S k]
    frames of the buffer; the loop skips the rest, and the socket is
    closing once the fuse has burnt down. *)
Lemma flush_fused buf st g k :
  gatewaySocket st = Some g →
  sockets st !! g = Some (mkWebSocket OPEN (Some (S k))) →
  gateway_sends (log (fold_left flush_one buf st))
  = gateway_sends (log st) ++ ((g,.) <$> take (S k) buf)
  ∧ ((S k ≤ length buf)%nat →
     socket_state g (fold_left flush_one buf st) = CLOSING).
Proof.
  revert st k. induction buf as [|msg buf IH]; intros st k Hg Hw; cbn [fold_left].
  - split; [by rewrite app_nil_r|cbn; lia].
  - rewrite (flush_one_fused st g k msg Hg Hw).
    set (w' := mkWebSocket (match k with 0%nat => CLOSING | S _ => OPEN end) (Some k)).
    assert (sockets (with_socket_log g w' [GatewaySend g msg] st) !! g = Some w') as Hw'.
    { cbn. apply list_lookup_insert_eq. by eapply lookup_lt_Some. }
    destruct k as [|k].
    + rewrite flush_closed.
      * split.
        -- cbn. unfold gateway_sends. rewrite omap_app. cbn. by rewrite take_0.
        -- intros _. unfold socket_state. by rewrite Hw'.
      * unfold gateway_open, socket_open. cbn [gatewaySocket with_socket_log].
        rewrite Hg. by rewrite Hw'.
    + destruct (IH (with_socket_log g w' [GatewaySend g msg] st) k Hg Hw') as [-> Hst].
      split.
      * cbn. unfold gateway_sends. rewrite omap_app. cbn. by rewrite <- app_assoc.
      * cbn [length]. intros Hk. apply Hst. lia.
Qed.

(** ** What one event does *)

Lemma sendStatus_cases state message st :
  sendStatus state message st = st
  ∨ (clientSocket st = OPEN
     ∧ sendStatus state message st
       = emit (ClientStatus (Json.stringify (status_object state message (now st)))) st).
Proof. unfold sendStatus. case_bool_decide; auto. Qed.

Lemma socket_state_emit e st i : socket_state i (emit e st) = socket_state i st.
Proof. done. Qed.

Lemma socket_state_sendStatus state message st i :
  socket_state i (sendStatus state message st) = socket_state i st.
Proof. by destruct (sendStatus_cases state message st) as [->|[_ ->]]. Qed.

Lemma socket_state_set s r st i :
  socket_state s st ≠ CLOSED →
  socket_state i (on_socket s (set_readyState r) st)
  = if decide (s = i) then r else socket_state i st.
Proof.
  intros Hs. rewrite socket_state_on_socket. case_decide; [subst|done].
  unfold socket_state in Hs. by destruct (sockets st !! i).
Qed.

Lemma onGatewayOpen_state st i :
  send_moves (socket_state i st) (socket_state i (onGatewayOpen st)).
Proof.
  unfold onGatewayOpen.
  change (socket_state i (set_buffer [] ?x)) with (socket_state i x).
  eapply send_moves_trans; [|apply flush_state].
  rewrite socket_state_sendStatus. apply send_moves_refl.
Qed.

Lemma onGatewayOpen_fields st :
  let st' := onGatewayOpen st in
  clientSocket st' = clientSocket st ∧ gatewaySocket st' = gatewaySocket st
  ∧ buffer st' = [] ∧ alive st' = alive st
  ∧ timers st' = timers st ∧ now st' = now st.
Proof.
  unfold onGatewayOpen. cbn.
  destruct (flush_fields
    (buffer (sendStatus CONNECTED ("Gateway live at " +:+ GATEWAY_WS) st))
    (sendStatus CONNECTED ("Gateway live at " +:+ GATEWAY_WS) st))
    as (-> & -> & _ & -> & -> & -> & _).
  by destruct (sendStatus_cases CONNECTED
    ("Gateway live at " +:+ GATEWAY_WS) st) as [->|[_ ->]].
Qed.

(** Every event but a gateway close and a timeout leaves the variable
    [gatewaySocket] and the timer queue alone, and neither closes a
    socket nor brings a closed one back. *)
Lemma handle_keeps e st :
  enabled st e = true →
  is_close_event e = false → is_timeout_event e = false →
  gatewaySocket (handle e st) = gatewaySocket st
  ∧ timers (handle e st) = timers st
  ∧ ∀ i, socket_state i (handle e st) = CLOSED ↔ socket_state i st = CLOSED.
Proof.
  intros Hen Hc Ht. destruct e as [d| | |s brk|s d|s|s m|s|c|d]; try done;
    cbn [handle enabled] in *.
  - unfold onClientMessage. destruct (gateway_open st); [|done].
    destruct (gateway_send_fields d st) as (_ & -> & _ & _ & -> & _).
    split; [done|split; [done|]].
    intros i. apply send_moves_closed, gateway_send_state.
  - unfold onClientClose; cbn. destruct (gatewaySocket st) as [g|] eqn:Hg; cbn;
      (split; [done|split; [done|]]); intros i; [|reflexivity].
    rewrite socket_state_emit, socket_state_on_socket.
    destruct (decide (g = i)); [subst|done]. unfold socket_state; cbn.
    destruct (sockets st !! i); [apply close_readyState|done].
  - apply andb_true_iff in Hen as [Hs _]. apply bool_decide_eq_true in Hs.
    destruct (onGatewayOpen_fields (on_socket s (λ _, mkWebSocket OPEN brk) st))
      as (_ & -> & _ & _ & -> & _).
    split; [done|split; [done|]]. intros i.
    rewrite (send_moves_closed _ _ (onGatewayOpen_state _ i)).
    rewrite socket_state_on_socket. destruct (decide (s = i)); [subst|done].
    unfold socket_state in *. destruct (sockets st !! i); [|done].
    cbn. split; congruence.
  - unfold onGatewayMessage. destruct (bool_decide (clientSocket st = OPEN));
      (split; [done|split; [done|intros; reflexivity]]).
  - apply bool_decide_eq_true in Hen.
    split; [done|split; [done|]]. intros i.
    rewrite socket_state_set by congruence.
    destruct (decide (s = i)); subst; [split; congruence|done].
  - apply bool_decide_eq_true in Hen. unfold onGatewayError.
    destruct (sendStatus_cases ERROR m (on_socket s (set_readyState CLOSING) st))
      as [->|[_ ->]]; cbn;
    (split; [done|split; [done|]]; intros i; rewrite ?socket_state_emit;
     rewrite socket_state_set by congruence;
     destruct (decide (s = i)); subst; [split; congruence|done]).
Qed.

Lemma connectGateway_state c st i :
  socket_state i (connectGateway c st)
  = match c with
    | Constructed =>
        if decide (i = length (sockets st)) then CONNECTING else socket_state i st
    | Throws _ => socket_state i st
    end.
Proof.
  destruct c as [|m]; cbn; [|apply socket_state_sendStatus].
  unfold socket_state; cbn. case_decide as Hi.
  - subst. by rewrite lookup_app_r, Nat.sub_diag by lia.
  - destruct (decide (i < length (sockets st))%nat).
    + by rewrite lookup_app_l.
    + rewrite !lookup_ge_None_2; [done|lia|rewrite length_app; cbn; lia].
Qed.

Lemma connectGateway_fields c st :
  let st' := connectGateway c st in
  clientSocket st' = clientSocket st ∧ buffer st' = buffer st
  ∧ alive st' = alive st ∧ timers st' = timers st ∧ now st' = now st
  ∧ gatewaySocket st'
    = match c with
      | Constructed => Some (length (sockets st))
      | Throws _ => gatewaySocket st
      end.
Proof.
  destruct c as [|m]; cbn; [done|].
  by destruct (sendStatus_cases ERROR ("Cannot create socket: " +:+ m) st) as [->|[_ ->]].
Qed.

Lemma onGatewayClose_fields st :
  let st' := onGatewayClose st in
  clientSocket st' = clientSocket st ∧ gatewaySocket st' = gatewaySocket st
  ∧ buffer st' = buffer st ∧ alive st' = alive st ∧ now st' = now st
  ∧ sockets st' = sockets st
  ∧ timers st'
    = timers st ++ (if alive st then [mkTimer (now st) RECONNECT_DELAY] else []).
Proof.
  unfold onGatewayClose.
  destruct (sendStatus_cases DISCONNECTED "Gateway closed — retrying in 3s" st)
    as [->|[_ ->]]; cbn; destruct (alive st) eqn:E; cbn; by rewrite ?app_nil_r.
Qed.

Lemma socket_state_sockets st st' i :
  sockets st' = sockets st → socket_state i st' = socket_state i st.
Proof. unfold socket_state. by intros ->. Qed.

Lemma Inv_onConnection t0 c : Inv (onConnection t0 c).
Proof.
  unfold onConnection. set (st0 := mkBridge OPEN None [] true [] [] t0 []).
  destruct (connectGateway_fields c st0) as (_ & _ & _ & Ht & _ & Hg).
  split; rewrite ?Ht; cbn; [|done|lia].
  intros i Hi. rewrite connectGateway_state. rewrite Hg in Hi.
  destruct c; cbn in *.
  - destruct (decide (i = 0%nat)); [congruence|].
    unfold socket_state; cbn. by destruct i.
  - unfold socket_state; cbn. by destruct i.
Qed.

Lemma Inv_handle e st : Inv st → enabled st e = true → Inv (handle e st).
Proof.
  intros [Hoth Hidle Hone] Hen.
  destruct (is_close_event e) eqn:Hc; [|destruct (is_timeout_event e) eqn:Ht].
  - destruct e as [| | | | | | |s| |]; try done.
    cbn [handle enabled] in *.
    apply bool_decide_eq_true in Hen.
    assert (timers st = []) as Htm.
    { destruct (timers st) as [|t ts] eqn:E; [done|]. exfalso.
      apply Hen, Hidle. congruence. }
    set (st1 := on_socket s (set_readyState CLOSED) st).
    assert (∀ i, socket_state i st1 = CLOSED) as Hall.
    { intros i. unfold st1. rewrite socket_state_set by done.
      destruct (decide (s = i)) as [|Hsi]; [done|].
      apply Hoth. intros Hg. apply Hen, Hoth. congruence. }
    destruct (onGatewayClose_fields st1) as (_ & Hg & _ & _ & _ & Hs & Ht).
    split.
    + intros i _. rewrite (socket_state_sockets _ _ _ Hs). apply Hall.
    + intros _ i. rewrite (socket_state_sockets _ _ _ Hs). apply Hall.
    + rewrite Ht. change (timers st1) with (timers st). rewrite Htm.
      destruct (alive st1); cbn; lia.
  - destruct e as [| | | | | | | |c|]; try done.
    cbn [handle enabled] in *.
    destruct (timers st) as [|t ts] eqn:Htm; [done|]. cbn [tail].
    assert (ts = []) as ->.
    { rewrite ?Htm in Hone. destruct ts; [done|cbn in Hone; lia]. }
    assert (∀ i, socket_state i st = CLOSED) as Hall
      by (apply Hidle; rewrite ?Htm; done).
    destruct (connectGateway_fields c (set_timers [] st)) as (_ & _ & _ & Ht' & _ & Hg).
    split; rewrite ?Ht'; cbn; [|done|lia].
    intros i Hi. rewrite connectGateway_state. rewrite Hg in Hi.
    destruct c; cbn in *; [|apply Hall].
    destruct (decide (i = length (sockets st))); [congruence|apply Hall].
  - destruct (handle_keeps e st Hen Hc Ht) as (Hg & Htm & Hcl).
    split.
    + intros i Hi. apply Hcl, Hoth. by rewrite <- Hg.
    + intros Hne i. apply Hcl, Hidle. by rewrite <- Htm.
    + by rewrite Htm.
Qed.

Lemma run_app st evs1 evs2 :
  run st (evs1 ++ evs2) = run st evs1 ≫= λ st1, run st1 evs2.
Proof.
  revert st. induction evs1 as [|e evs1 IH]; intros st; cbn; [done|].
  destruct (enabled st e); [apply IH|done].
Qed.

Lemma run_snoc st evs e st' :
  run st (evs ++ [e]) = Some st' ↔
  ∃ st1, run st evs = Some st1 ∧ enabled st1 e = true ∧ st' = handle e st1.
Proof.
  rewrite run_app. destruct (run st evs) as [st1|]; cbn.
  - destruct (enabled st1 e) eqn:He; split.
    + intros [= <-]. by exists st1.
    + by intros (? & [= <-] & _ & ->).
    + done.
    + intros (? & [= <-] & ? & _). congruence.
  - split; [done|]. by intros (? & ? & _).
Qed.

Lemma Inv_run st evs st' : Inv st → run st evs = Some st' → Inv st'.
Proof.
  revert st. induction evs as [|e evs IH]; intros st HI; cbn.
  - by intros [= <-].
  - destruct (enabled st e) eqn:Hen; [|done]. apply IH. by apply Inv_handle.
Qed.

Lemma Inv_bridge t0 c evs st : bridge t0 c evs = Some st → Inv st.
Proof. apply Inv_run, Inv_onConnection. Qed.


(** ** What one event appends to the log *)

Lemma sendStatus_log state message st :
  log (sendStatus state message st) = log st ++ status_effect state message st.
Proof.
  unfold sendStatus, status_effect. case_bool_decide; cbn; by rewrite ?app_nil_r.
Qed.

Lemma sendStatus_fields state message st :
  let st' := sendStatus state message st in
  clientSocket st' = clientSocket st ∧ gatewaySocket st' = gatewaySocket st
  ∧ buffer st' = buffer st ∧ alive st' = alive st ∧ sockets st' = sockets st
  ∧ timers st' = timers st ∧ now st' = now st.
Proof. by destruct (sendStatus_cases state message st) as [->|[_ ->]]. Qed.

Lemma onGatewayOpen_log st :
  ∃ more, more `sublist_of` buffer st
    ∧ log (onGatewayOpen st)
      = log st ++ status_effect CONNECTED ("Gateway live at " +:+ GATEWAY_WS) st
          ++ match gatewaySocket st with
             | Some g => GatewaySend g <$> more
             | None => []
             end.
Proof.
  unfold onGatewayOpen. cbn.
  set (st1 := sendStatus CONNECTED ("Gateway live at " +:+ GATEWAY_WS) st).
  destruct (flush_fields (buffer st1) st1) as (_ & _ & _ & _ & _ & _ & more & Hsub & ->).
  destruct (sendStatus_fields CONNECTED ("Gateway live at " +:+ GATEWAY_WS) st)
    as (_ & Hg & Hb & _).
  fold st1 in Hg, Hb. rewrite Hg, Hb in *. exists more. split; [done|].
  unfold st1. by rewrite sendStatus_log, <- app_assoc.
Qed.

(** The effects of an event, and the buffer after it. *)
Lemma handle_effects e st :
  ∃ l, log (handle e st) = log st ++ l ∧
    match e with
    | ClientMessage d =>
        (l = [] ∧ buffer (handle e st) = buffer st ++ [d] ∧ gateway_open st = false)
        ∨ (∃ g, l = [GatewaySend g d] ∧ buffer (handle e st) = buffer st
                ∧ gateway_open st = true)
    | GatewayOpen s brk =>
        ∃ more, more `sublist_of` buffer st
          ∧ l = status_effect CONNECTED ("Gateway live at " +:+ GATEWAY_WS) st
                ++ match gatewaySocket st with
                   | Some g => GatewaySend g <$> more
                   | None => []
                   end
          ∧ buffer (handle e st) = []
    | GatewayMessage _ d =>
        l = (if bool_decide (clientSocket st = OPEN) then [ClientRelay d] else [])
        ∧ buffer (handle e st) = buffer st
    | GatewayError _ m => l = status_effect ERROR m st ∧ buffer (handle e st) = buffer st
    | GatewayClose _ =>
        l = status_effect DISCONNECTED "Gateway closed — retrying in 3s" st
              ++ (if alive st then [SetTimeout RECONNECT_DELAY] else [])
        ∧ buffer (handle e st) = buffer st
    | ClientClose =>
        l = match gatewaySocket st with Some g => [GatewayShut g] | None => [] end
        ∧ buffer (handle e st) = buffer st
    | Timeout c =>
        l = match c with
            | Constructed => [GatewayNew (length (sockets st))]
            | Throws m => status_effect ERROR ("Cannot create socket: " +:+ m) st
            end
        ∧ buffer (handle e st) = buffer st
    | ClientClosing | GatewayClosing _ | Tick _ =>
        l = [] ∧ buffer (handle e st) = buffer st
    end.
Proof.
  destruct e as [d| | |s brk|s d|s|s m|s|c|d]; cbn [handle].
  - unfold onClientMessage. destruct (gateway_open st) eqn:Hopen.
    + unfold gateway_open in Hopen. unfold gateway_send.
      destruct (gatewaySocket st) as [g|] eqn:Hg; [|done]. cbn.
      eexists. split; [done|]. right. by exists g.
    + exists []. cbn. rewrite app_nil_r. split; [done|]. by left.
  - exists []. cbn. by rewrite app_nil_r.
  - unfold onClientClose. cbn. destruct (gatewaySocket st) as [g|]; cbn.
    + by eexists.
    + exists []. by rewrite app_nil_r.
  - destruct (onGatewayOpen_log (on_socket s (λ _, mkWebSocket OPEN brk) st))
      as (more & Hsub & ->).
    destruct (onGatewayOpen_fields (on_socket s (λ _, mkWebSocket OPEN brk) st))
      as (_ & _ & -> & _).
    eexists. split; [done|]. by exists more.
  - unfold onGatewayMessage. case_bool_decide; cbn.
    + by eexists.
    + exists []. by rewrite app_nil_r.
  - exists []. cbn. by rewrite app_nil_r.
  - unfold onGatewayError. rewrite sendStatus_log.
    destruct (sendStatus_fields ERROR m (on_socket s (set_readyState CLOSING) st))
      as (_ & _ & -> & _). by eexists.
  - unfold onGatewayClose.
    set (st1 := on_socket s (set_readyState CLOSED) st).
    destruct (sendStatus_fields DISCONNECTED "Gateway closed — retrying in 3s" st1)
      as (_ & _ & Hb & Ha & _). rewrite Ha.
    change (alive st1) with (alive st). destruct (alive st); cbn.
    + rewrite sendStatus_log, Hb, <- app_assoc. by eexists.
    + rewrite sendStatus_log, Hb, app_nil_r. by eexists.
  - destruct c as [|m]; cbn.
    + by eexists.
    + rewrite sendStatus_log.
      destruct (sendStatus_fields ERROR ("Cannot create socket: " +:+ m)
        (set_timers (tail (timers st)) st)) as (_ & _ & -> & _). by eexists.
  - exists []. cbn. by rewrite app_nil_r.
Qed.

(** ** Frames sent to the gateway *)

Lemma gateway_sends_app l1 l2 :
  gateway_sends (l1 ++ l2) = gateway_sends l1 ++ gateway_sends l2.
Proof. apply omap_app. Qed.

Lemma gateway_sent_app l1 l2 :
  gateway_sent (l1 ++ l2) = gateway_sent l1 ++ gateway_sent l2.
Proof. unfold gateway_sent. by rewrite gateway_sends_app, fmap_app. Qed.

Lemma gateway_sends_status state message st :
  gateway_sends (status_effect state message st) = [].
Proof. unfold status_effect. by case_bool_decide. Qed.

Lemma gateway_sends_flush g (fs : list string) :
  gateway_sends (GatewaySend g <$> fs) = (g,.) <$> fs.
Proof. induction fs as [|f fs IH]; cbn; [done|]. by rewrite <- IH. Qed.

Lemma client_statuses_app l1 l2 :
  client_statuses (l1 ++ l2) = client_statuses l1 ++ client_statuses l2.
Proof. apply omap_app. Qed.

Lemma client_statuses_flush g (fs : list string) :
  client_statuses (GatewaySend g <$> fs) = [].
Proof. by induction fs. Qed.

Lemma client_statuses_status state message st :
  client_statuses (status_effect state message st)
  = if bool_decide (clientSocket st = OPEN)
    then [Json.stringify (status_object state message (now st))]
    else [].
Proof. unfold status_effect. by case_bool_decide. Qed.

Lemma pairs_snd (g : nat) (fs : list string) : ((g,.) <$> fs).*2 = fs.
Proof. induction fs as [|f fs IH]; cbn; [done|]. by rewrite IH. Qed.

Lemma client_frames_app evs1 evs2 :
  client_frames (evs1 ++ evs2) = client_frames evs1 ++ client_frames evs2.
Proof. apply omap_app. Qed.

(** One event: what goes to the gateway is taken from the buffer or is
    the frame that just arrived, and what stays in the buffer likewise. *)
Lemma sends_step e st :
  ∃ more, gateway_sends (log (handle e st)) = gateway_sends (log st) ++ more
    ∧ more.*2 ++ buffer (handle e st) ⊆+ buffer st ++ client_frames [e].
Proof.
  destruct (handle_effects e st) as (l & -> & He).
  rewrite gateway_sends_app. exists (gateway_sends l). split; [done|].
  destruct e as [d| | |s brk|s d|s|s m|s|c|d];
    try (destruct He as [-> ->]; cbn [client_frames omap]; rewrite app_nil_r).
  - destruct He as [(-> & -> & _)|(g & -> & -> & _)]; cbn; [done|].
    apply Permutation_submseteq. apply Permutation_cons_append.
  - done.
  - by destruct (gatewaySocket st).
  - destruct He as (more & Hsub & -> & ->). cbn. rewrite !app_nil_r.
    rewrite gateway_sends_app, gateway_sends_status. cbn.
    destruct (gatewaySocket st) as [g|]; cbn.
    + rewrite gateway_sends_flush, pairs_snd. by apply sublist_submseteq.
    + apply submseteq_nil_l.
  - by case_bool_decide.
  - done.
  - by rewrite gateway_sends_status.
  - rewrite gateway_sends_app, gateway_sends_status. by destruct (alive st).
  - destruct c; [done|]. by rewrite gateway_sends_status.
  - done.
Qed.

(** A run: what has gone to the gateway and what is in the buffer are
    frames that were in the buffer or came from the browser, each at most
    as often as it came. *)
Lemma sends_run st evs st' :
  run st evs = Some st' →
  ∃ more, gateway_sends (log st') = gateway_sends (log st) ++ more
    ∧ more.*2 ++ buffer st' ⊆+ buffer st ++ client_frames evs.
Proof.
  revert st. induction evs as [|e evs IH]; intros st; cbn [run].
  - intros [= <-]. exists []. by rewrite !app_nil_r.
  - destruct (enabled st e); [|done]. intros Hrun.
    destruct (IH _ Hrun) as (more2 & -> & Hsub2).
    destruct (sends_step e st) as (more1 & -> & Hsub1).
    exists (more1 ++ more2). split; [by rewrite app_assoc|].
    rewrite fmap_app, <- app_assoc.
    change (e :: evs) with ([e] ++ evs). rewrite client_frames_app.
    trans (more1.*2 ++ buffer (handle e st) ++ client_frames evs).
    + by apply submseteq_skips_l.
    + rewrite !app_assoc. by apply submseteq_skips_r.
Qed.

(** ** Sockets open only by their open event *)

Lemma handle_open_from e st i :
  is_open_event e = false →
  socket_state i (handle e st) = OPEN → socket_state i st = OPEN.
Proof.
  intros He. destruct e as [d| | |s brk|s d|s|s m|s|c|d]; try done; cbn [handle].
  - unfold onClientMessage. destruct (gateway_open st); [|done].
    intros H. destruct (gateway_send_state d st i) as [Hs|[? Hs]]; congruence.
  - unfold onClientClose. cbn. destruct (gatewaySocket st) as [g|]; [|done].
    rewrite socket_state_emit, socket_state_on_socket.
    destruct (decide (g = i)); [subst|done]. unfold socket_state. cbn.
    destruct (sockets st !! i) as [[[] f]|]; by cbn.
  - unfold onGatewayMessage. by case_bool_decide.
  - rewrite socket_state_on_socket. destruct (decide (s = i)); [subst|done].
    unfold socket_state. by destruct (sockets st !! i).
  - unfold onGatewayError. rewrite socket_state_sendStatus, socket_state_on_socket.
    destruct (decide (s = i)); [subst|done].
    unfold socket_state. by destruct (sockets st !! i).
  - destruct (onGatewayClose_fields (on_socket s (set_readyState CLOSED) st))
      as (_ & _ & _ & _ & _ & Hs & _).
    rewrite (socket_state_sockets _ _ _ Hs), socket_state_on_socket.
    destruct (decide (s = i)); [subst|done].
    unfold socket_state. by destruct (sockets st !! i).
  - rewrite connectGateway_state. destruct c; [|done].
    by destruct (decide (i = length (sockets (set_timers (tail (timers st)) st)))).
Qed.

Lemma handle_gateway_open_from e st :
  is_open_event e = false →
  gateway_open (handle e st) = true → gateway_open st = true.
Proof.
  intros He. unfold gateway_open.
  destruct (gatewaySocket (handle e st)) as [g'|] eqn:Hg'; [|done].
  rewrite socket_open_state. intros H%bool_decide_eq_true.
  assert (socket_state g' st = OPEN) as Hopen by (by eapply handle_open_from).
  destruct (is_timeout_event e) eqn:Ht.
  - destruct e as [| | | | | | | |c|]; try done. cbn [handle] in *.
    rewrite connectGateway_state in H.
    destruct (connectGateway_fields c (set_timers (tail (timers st)) st))
      as (_ & _ & _ & _ & _ & Hg). rewrite Hg' in Hg.
    destruct c; cbn in *.
    + injection Hg as ->. by rewrite decide_True in H.
    + rewrite <- Hg, socket_open_state. by apply bool_decide_eq_true.
  - assert (gatewaySocket (handle e st) = gatewaySocket st) as Hg.
    { destruct e as [d| | |s brk|s d|s|s m|s|c|d]; try done; cbn [handle].
      - unfold onClientMessage. destruct (gateway_open st); [|done].
        by destruct (gateway_send_fields d st) as (_ & -> & _).
      - unfold onClientClose. cbn. by destruct (gatewaySocket st) eqn:E.
      - unfold onGatewayMessage. by destruct (bool_decide (clientSocket st = OPEN)).
      - unfold onGatewayError.
        by destruct (sendStatus_fields ERROR m (on_socket s (set_readyState CLOSING) st))
          as (_ & -> & _).
      - by destruct (onGatewayClose_fields (on_socket s (set_readyState CLOSED) st))
          as (_ & -> & _). }
    rewrite <- Hg, Hg', socket_open_state. by apply bool_decide_eq_true.
Qed.

(** ** Exact accounting while flushes run to the end *)

Lemma Inv_gateway st s :
  Inv st → socket_state s st ≠ CLOSED → gatewaySocket st = Some s.
Proof.
  intros HI Hs. destruct (decide (gatewaySocket st = Some s)) as [|Hne]; [done|].
  by apply (inv_others_closed _ HI) in Hne.
Qed.

Lemma onGatewayOpen_steady st g :
  gatewaySocket st = Some g →
  sockets st !! g = Some (mkWebSocket OPEN None) →
  log (onGatewayOpen st)
  = log st ++ status_effect CONNECTED ("Gateway live at " +:+ GATEWAY_WS) st
      ++ (GatewaySend g <$> buffer st).
Proof.
  intros Hg Hw. unfold onGatewayOpen. cbn.
  destruct (sendStatus_fields CONNECTED ("Gateway live at " +:+ GATEWAY_WS) st)
    as (_ & Hg1 & Hb1 & _ & Hs1 & _).
  rewrite (flush_steady _ _ g); [|congruence|by rewrite Hs1].
  cbn. by rewrite sendStatus_log, Hb1, <- app_assoc.
Qed.

(** The listener of a steady open event, run on the bridge's own socket. *)
Lemma handle_open_steady st s :
  Inv st → enabled st (GatewayOpen s None) = true →
  log (handle (GatewayOpen s None) st)
  = log st ++ status_effect CONNECTED ("Gateway live at " +:+ GATEWAY_WS) st
      ++ (GatewaySend s <$> buffer st)
  ∧ buffer (handle (GatewayOpen s None) st) = [].
Proof.
  intros HI Hen. cbn in Hen. apply andb_true_iff in Hen as [Hs _].
  apply bool_decide_eq_true in Hs.
  assert (gatewaySocket st = Some s) as Hg by (apply Inv_gateway; [done|congruence]).
  cbn [handle]. split.
  - rewrite (onGatewayOpen_steady _ s); [done|done|]. cbn.
    rewrite list_lookup_alter_eq. unfold socket_state in Hs.
    by destruct (sockets st !! s).
  - by destruct (onGatewayOpen_fields (on_socket s (λ _, mkWebSocket OPEN None) st))
      as (_ & _ & -> & _).
Qed.

Lemma flushed_handle e st : flushed st → flushed (handle e st).
Proof.
  intros Hf. destruct (is_open_event e) eqn:He.
  - by destruct e as [| | |s brk| | | | | |].
  - intros Hopen. apply handle_gateway_open_from in Hopen; [|done].
    destruct (handle_effects e st) as (l & _ & Hl).
    destruct e as [d| | |s brk|s d|s|s m|s|c|d]; try done;
      try (destruct Hl as [_ ->]; by apply Hf).
    destruct Hl as [(_ & _ & Hclosed)|(g & _ & -> & _)]; [congruence|by apply Hf].
Qed.

Lemma gateway_sent_status state message st :
  gateway_sent (status_effect state message st) = [].
Proof. unfold gateway_sent. by rewrite gateway_sends_status. Qed.

Lemma gateway_sent_flush g (fs : list string) :
  gateway_sent (GatewaySend g <$> fs) = fs.
Proof. unfold gateway_sent. by rewrite gateway_sends_flush, pairs_snd. Qed.

Lemma sends_exact_step e st :
  Inv st → flushed st → enabled st e = true →
  (∀ s brk, e = GatewayOpen s brk → brk = None) →
  gateway_sent (log (handle e st)) ++ buffer (handle e st)
  = gateway_sent (log st) ++ buffer st ++ client_frames [e].
Proof.
  intros HI Hf Hen Hsteady. destruct (is_open_event e) eqn:He.
  - destruct e as [| | |s brk| | | | | |]; try done.
    rewrite (Hsteady s brk eq_refl) in *.
    destruct (handle_open_steady st s HI Hen) as [-> ->].
    rewrite !gateway_sent_app, gateway_sent_status, gateway_sent_flush. cbn.
    by rewrite !app_nil_r.
  - destruct (handle_effects e st) as (l & -> & Hl). rewrite gateway_sent_app.
    destruct e as [d| | |s brk|s d|s|s m|s|c|d]; try done;
      try (destruct Hl as [-> ->]; cbn [client_frames omap]; rewrite app_nil_r).
    + destruct Hl as [(-> & -> & _)|(g & -> & -> & Hopen)]; cbn.
      * by rewrite app_nil_r.
      * by rewrite (Hf Hopen), !app_nil_r.
    + by rewrite app_nil_r.
    + destruct (gatewaySocket st); by rewrite app_nil_r.
    + case_bool_decide; by rewrite app_nil_r.
    + by rewrite app_nil_r.
    + by rewrite gateway_sent_status, app_nil_r.
    + rewrite gateway_sent_app, gateway_sent_status.
      destruct (alive st); by rewrite app_nil_r.
    + destruct c; [|rewrite gateway_sent_status]; by rewrite app_nil_r.
    + by rewrite app_nil_r.
Qed.

Lemma opens_steady_cons e evs :
  opens_steady (e :: evs) ↔ (∀ s brk, e = GatewayOpen s brk → brk = None) ∧ opens_steady evs.
Proof.
  unfold opens_steady. split.
  - intros H. split.
    + intros s brk ->. apply (H s). by left.
    + intros s brk Hin. apply (H s). by right.
  - intros [H1 H2] s brk [Heq|Hin]%elem_of_cons; [by apply (H1 s)|by apply (H2 s)].
Qed.

Lemma steady_opens_steady evs : steady evs = true → opens_steady evs.
Proof.
  induction evs as [|e evs IH]; cbn.
  - by intros _ s brk ?%elem_of_nil.
  - intros [He Hevs]%andb_true_iff. apply opens_steady_cons. split; [|by apply IH].
    intros s brk ->. by destruct brk.
Qed.

Lemma no_open_event_Forall evs :
  no_open_event evs = true → Forall (λ e, is_open_event e = false) evs.
Proof.
  induction evs as [|e evs IH]; cbn; [by constructor|].
  intros [He Hevs]%andb_true_iff. constructor; [|by apply IH].
  by destruct (is_open_event e).
Qed.

Lemma flushed_run st evs st' : flushed st → run st evs = Some st' → flushed st'.
Proof.
  revert st. induction evs as [|e evs IH]; intros st Hf; cbn [run].
  - by intros [= <-].
  - destruct (enabled st e); [|done]. apply IH. by apply flushed_handle.
Qed.

(** Along a steady run every frame of the browser is either sent or
    still buffered, once, and in the order it came. *)
Lemma sends_exact_run st evs st' :
  Inv st → flushed st → opens_steady evs → run st evs = Some st' →
  gateway_sent (log st') ++ buffer st'
  = gateway_sent (log st) ++ buffer st ++ client_frames evs.
Proof.
  revert st. induction evs as [|e evs IH]; intros st HI Hf Hst; cbn [run].
  - intros [= <-]. by rewrite !app_nil_r.
  - destruct (enabled st e) eqn:Hen; [|done]. intros Hrun.
    apply opens_steady_cons in Hst as [He Hst].
    rewrite (IH (handle e st)); [|by apply Inv_handle|by apply flushed_handle|done|done].
    rewrite app_assoc, sends_exact_step by done.
    rewrite <- !app_assoc. do 2 f_equal. symmetry. apply (client_frames_app [e] evs).
Qed.

Lemma flushed_onConnection t0 c : flushed (onConnection t0 c).
Proof.
  intros _. unfold onConnection.
  by destruct (connectGateway_fields c (mkBridge OPEN None [] true [] [] t0 []))
    as (_ & -> & _).
Qed.

(** ** Runs without an open event *)

Lemma handle_buffers e st :
  is_open_event e = false → gateway_open st = false →
  gateway_sends (log (handle e st)) = gateway_sends (log st)
  ∧ buffer (handle e st) = buffer st ++ client_frames [e].
Proof.
  intros He Hopen. destruct (handle_effects e st) as (l & -> & Hl).
  rewrite gateway_sends_app.
  destruct e as [d| | |s brk|s d|s|s m|s|c|d]; try done;
    try (destruct Hl as [-> ->]; cbn [client_frames omap]; rewrite !app_nil_r).
  - destruct Hl as [(-> & -> & _)|(g & _ & _ & ?)]; [|congruence].
    by rewrite app_nil_r.
  - done.
  - by destruct (gatewaySocket st); rewrite app_nil_r.
  - by case_bool_decide; rewrite app_nil_r.
  - done.
  - by rewrite gateway_sends_status, app_nil_r.
  - rewrite gateway_sends_app, gateway_sends_status.
    by destruct (alive st); rewrite app_nil_r.
  - destruct c; [|rewrite gateway_sends_status]; by rewrite app_nil_r.
  - done.
Qed.

(** While no socket opens, nothing goes to the gateway and every frame
    of the browser joins the buffer. *)
Lemma buffering_run st mid st' :
  gateway_open st = false →
  Forall (λ e, is_open_event e = false) mid →
  run st mid = Some st' →
  gateway_open st' = false
  ∧ gateway_sends (log st') = gateway_sends (log st)
  ∧ buffer st' = buffer st ++ client_frames mid.
Proof.
  revert st. induction mid as [|e mid IH]; intros st Hopen Hmid; cbn [run].
  - intros [= <-]. by rewrite app_nil_r.
  - destruct (enabled st e); [|done]. intros Hrun.
    apply Forall_cons in Hmid as [He Hmid].
    destruct (handle_buffers e st He Hopen) as [Hs Hb].
    destruct (IH (handle e st)) as (H1 & H2 & H3); [|done|done|].
    + destruct (gateway_open (handle e st)) eqn:E; [|done].
      apply handle_gateway_open_from in E; [congruence|done].
    + split; [done|]. split; [congruence|].
      rewrite H3, Hb, <- app_assoc. f_equal. symmetry.
      apply (client_frames_app [e] mid).
Qed.

(** ** Client frames on their way to the gateway *)

Lemma onConnection_sends t0 c : gateway_sends (log (onConnection t0 c)) = [].
Proof.
  unfold onConnection. destruct c as [|m]; cbn [connectGateway]; [done|].
  by rewrite sendStatus_log, gateway_sends_app, gateway_sends_status.
Qed.

Lemma onConnection_buffer t0 c : buffer (onConnection t0 c) = [].
Proof.
  unfold onConnection.
  by destruct (connectGateway_fields c (mkBridge OPEN None [] true [] [] t0 []))
    as (_ & -> & _).
Qed.

(** C1.  Take any steady run of a bridge that ends with no open gateway
    socket, let further events come in of which none is an open event (so
    every frame of the browser among them arrives while there is no open
    upstream), and then let socket [s] open and stay open through its
    listener.  The listener hands to [s] exactly the frames buffered
    before followed by the frames that arrived in between, in the order
    they came, each once, and the buffer is empty afterwards.  The buffer
    held exactly the frames of the browser not yet handed on, so that
    after the open event the frames sent upstream are the frames the
    browser sent, none dropped, none twice. *)
Theorem C1_buffered_frames_flushed_in_order t0 c evs st mid s st' :
  steady evs = true →
  bridge t0 c evs = Some st →
  gateway_open st = false →
  no_open_event mid = true →
  run st (mid ++ [GatewayOpen s None]) = Some st' →
  gateway_sends (log st')
  = gateway_sends (log st) ++ ((s,.) <$> (buffer st ++ client_frames mid))
  ∧ buffer st' = []
  ∧ gateway_sent (log st) ++ buffer st = client_frames evs
  ∧ gateway_sent (log st') = client_frames (evs ++ mid).
Proof.
  intros Hsteady%steady_opens_steady Hrun Hclosed Hmid%no_open_event_Forall Hrun'.
  apply run_snoc in Hrun' as (st1 & Hrun1 & Hen & ->).
  pose proof (Inv_bridge _ _ _ _ Hrun) as HI.
  pose proof (Inv_run _ _ _ HI Hrun1) as HI1.
  destruct (buffering_run _ _ _ Hclosed Hmid Hrun1) as (_ & Hs1 & Hb1).
  destruct (handle_open_steady st1 s HI1 Hen) as [Hlog Hbuf].
  assert (gateway_sent (log st) ++ buffer st = client_frames evs) as Hacc.
  { unfold bridge in Hrun.
    rewrite (sends_exact_run _ _ _ (Inv_onConnection t0 c)
               (flushed_onConnection t0 c) Hsteady Hrun).
    unfold gateway_sent. by rewrite onConnection_sends, onConnection_buffer. }
  assert (gateway_sends (log (handle (GatewayOpen s None) st1))
          = gateway_sends (log st) ++ ((s,.) <$> (buffer st ++ client_frames mid)))
    as Hsends.
  { rewrite Hlog, !gateway_sends_app, gateway_sends_status, gateway_sends_flush.
    cbn. by rewrite Hs1, Hb1. }
  split; [done|]. split; [done|]. split; [done|].
  unfold gateway_sent in *. rewrite Hsends, fmap_app, pairs_snd, client_frames_app.
  by rewrite app_assoc, Hacc.
Qed.

(** C4.  Everything the bridge hands to a gateway socket is a frame it
    received from the browser, no more often than it was received; and a
    call of [sendStatus] sends to the browser socket or not at all: it
    appends at most one notification for the browser to the log, and
    touches no gateway socket. *)
Theorem C4_status_never_upstream t0 c evs st :
  bridge t0 c evs = Some st →
  gateway_sent (log st) ⊆+ client_frames evs
  ∧ (∀ s d, GatewaySend s d ∈ log st → d ∈ client_frames evs)
  ∧ (∀ state message st0,
       sockets (sendStatus state message st0) = sockets st0
       ∧ gateway_sends (log (sendStatus state message st0)) = gateway_sends (log st0)
       ∧ (log (sendStatus state message st0) = log st0
          ∨ ∃ p, log (sendStatus state message st0) = log st0 ++ [ClientStatus p])).
Proof.
  intros Hrun. unfold bridge in Hrun.
  destruct (sends_run _ _ _ Hrun) as (more & Hlog & Hsub).
  pose proof (onConnection_sends t0 c) as Hinit.
  pose proof (onConnection_buffer t0 c) as Hbuf.
  rewrite Hinit in Hlog. rewrite Hbuf in Hsub. cbn in Hlog, Hsub.
  assert (gateway_sent (log st) ⊆+ client_frames evs) as Hsent.
  { unfold gateway_sent. rewrite Hlog.
    etrans; [|exact Hsub]. by apply submseteq_inserts_r. }
  split; [done|]. split.
  - intros s d Hin. eapply elem_of_submseteq; [|exact Hsent].
    unfold gateway_sent, gateway_sends.
    apply (list_elem_of_fmap_2 snd _ (s, d)), list_elem_of_omap.
    by exists (GatewaySend s d).
  - intros state message st0.
    destruct (sendStatus_fields state message st0) as (_ & _ & _ & _ & -> & _).
    rewrite sendStatus_log, gateway_sends_app, gateway_sends_status, app_nil_r.
    split; [done|]. split; [done|].
    unfold status_effect. case_bool_decide; [right; by eexists|left; by rewrite app_nil_r].
Qed.

(** C7.  The browser sends frame [d] while no gateway socket is open;
    later, with no open event in between, socket [s] opens and stays
    open through its listener.  Nothing was handed to a gateway socket in
    between.  If the browser socket is open, the open listener first
    sends it the notification with state connected, and then hands the
    buffer to [s], with [d] once, at its place; if the browser socket is
    not open, the listener hands the buffer to [s] in the same way and
    sends no notification.  The buffer is empty afterwards, and whatever
    a steady run hands to a gateway socket later is a frame the browser
    sends later. *)
Theorem C7_frame_once_after_connected t0 c evs st0 d mid st1 s :
  bridge t0 c evs = Some st0 →
  gateway_open st0 = false →
  no_open_event mid = true →
  run st0 (ClientMessage d :: mid) = Some st1 →
  enabled st1 (GatewayOpen s None) = true →
  let st2 := handle (GatewayOpen s None) st1 in
  let connected :=
    ClientStatus (Json.stringify
      [("type", JString "__index_status"); ("state", JString "connected");
       ("message", JString ("Gateway live at " +:+ GATEWAY_WS));
       ("ts", JNumber (now st1))]) in
  gateway_sends (log st1) = gateway_sends (log st0)
  ∧ log st2
    = log st1
        ++ (if bool_decide (clientSocket st1 = OPEN) then [connected] else [])
        ++ (GatewaySend s <$> buffer st0)
        ++ GatewaySend s d :: (GatewaySend s <$> client_frames mid)
  ∧ (clientSocket st1 = OPEN →
       client_statuses (log st2) = client_statuses (log st1) ++ [Json.stringify
         [("type", JString "__index_status"); ("state", JString "connected");
          ("message", JString ("Gateway live at " +:+ GATEWAY_WS));
          ("ts", JNumber (now st1))]])
  ∧ (clientSocket st1 ≠ OPEN → client_statuses (log st2) = client_statuses (log st1))
  ∧ gateway_sends (log st2)
    = gateway_sends (log st1) ++ ((s,.) <$> (buffer st0 ++ d :: client_frames mid))
  ∧ buffer st2 = []
  ∧ ∀ evs' st3, steady evs' = true → run st2 evs' = Some st3 →
      gateway_sent (log st3) ++ buffer st3 = gateway_sent (log st2) ++ client_frames evs'.
Proof.
  intros Hrun Hclosed Hmid%no_open_event_Forall Hrun1 Hen st2 connected.
  subst st2 connected.
  pose proof (Inv_bridge _ _ _ _ Hrun) as HI0.
  pose proof (Inv_run _ _ _ HI0 Hrun1) as HI1.
  assert (Forall (λ e, is_open_event e = false) (ClientMessage d :: mid)) as Hmid'
    by (by constructor).
  destruct (buffering_run _ _ _ Hclosed Hmid' Hrun1) as (_ & Hs1 & Hb1).
  destruct (handle_open_steady st1 s HI1 Hen) as [Hlog Hbuf].
  split; [done|]. split; [|split; [|split; [|split; [|split; [done|]]]]].
  - rewrite Hlog, Hb1. unfold status_effect. cbn. by rewrite fmap_app.
  - intros Hclient. rewrite Hlog, !client_statuses_app, client_statuses_flush.
    unfold status_effect. rewrite bool_decide_eq_true_2 by done.
    by rewrite app_nil_r.
  - intros Hclient. rewrite Hlog, !client_statuses_app, client_statuses_flush.
    unfold status_effect. rewrite bool_decide_eq_false_2 by done.
    by rewrite !app_nil_r.
  - rewrite Hlog, !gateway_sends_app, gateway_sends_status, gateway_sends_flush.
    by rewrite Hb1.
  - intros evs' st3 Hsteady%steady_opens_steady Hrun3.
    rewrite (sends_exact_run (handle (GatewayOpen s None) st1) evs' st3);
      [by rewrite Hbuf| |by intros _|done|done].
    by apply Inv_handle.
Qed.

(** C9.  Socket [s] opens with a fuse of [S k] frames while the buffer
    holds more than [S k]: it leaves the open state in the middle of the
    flush.  The first [S k] buffered frames are handed to [s] and those
    behind them are not; the buffer is empty after the listener all the
    same, with the socket closing; and whatever is handed to a gateway
    socket from then on is a frame the browser sends from then on, so the
    frames skipped are gone. *)
Theorem C9_interrupted_flush_loses_frames t0 c evs st s k :
  bridge t0 c evs = Some st →
  enabled st (GatewayOpen s (Some (S k))) = true →
  (S k < length (buffer st))%nat →
  let st' := handle (GatewayOpen s (Some (S k))) st in
  gateway_sends (log st')
  = gateway_sends (log st) ++ ((s,.) <$> take (S k) (buffer st))
  ∧ drop (S k) (buffer st) ≠ []
  ∧ buffer st' = []
  ∧ socket_state s st' = CLOSING
  ∧ ∀ evs' st'', run st' evs' = Some st'' →
      ∃ more, gateway_sends (log st'') = gateway_sends (log st') ++ more
        ∧ more.*2 ++ buffer st'' ⊆+ client_frames evs'.
Proof.
  intros Hrun Hen Hk st'.
  pose proof (Inv_bridge _ _ _ _ Hrun) as HI.
  pose proof Hen as Hen'. cbn in Hen'. apply andb_true_iff in Hen' as [Hs _].
  apply bool_decide_eq_true in Hs.
  assert (gatewaySocket st = Some s) as Hg by (apply Inv_gateway; [done|congruence]).
  set (st0 := on_socket s (λ _, mkWebSocket OPEN (Some (S k))) st).
  set (st1 := sendStatus CONNECTED ("Gateway live at " +:+ GATEWAY_WS) st0).
  destruct (sendStatus_fields CONNECTED ("Gateway live at " +:+ GATEWAY_WS) st0)
    as (_ & Hg1 & Hb1 & _ & Hs1 & _). fold st1 in Hg1, Hb1, Hs1.
  assert (sockets st1 !! s = Some (mkWebSocket OPEN (Some (S k)))) as Hw.
  { rewrite Hs1. cbn. rewrite list_lookup_alter_eq. unfold socket_state in Hs.
    by destruct (sockets st !! s). }
  destruct (flush_fused (buffer st) st1 s k) as [Hsends Hstate];
    [rewrite Hg1; exact Hg|done|].
  assert (buffer st' = []) as Hbuf by done.
  split; [|split; [|split; [done|split]]].
  - unfold st', handle, onGatewayOpen. fold st0. fold st1. cbn [log set_buffer].
    rewrite Hb1. cbn [buffer on_socket set_sockets st0]. rewrite Hsends.
    unfold st1. by rewrite sendStatus_log, gateway_sends_app, gateway_sends_status, app_nil_r.
  - intros Hnil. apply (f_equal length) in Hnil. rewrite length_drop in Hnil.
    cbn in Hnil. lia.
  - unfold st', handle, onGatewayOpen. fold st0. fold st1.
    change (socket_state s (set_buffer [] ?x)) with (socket_state s x).
    rewrite Hb1. apply Hstate. cbn [buffer on_socket set_sockets st0]. lia.
  - intros evs' st'' Hrun'. destruct (sends_run _ _ _ Hrun') as (more & Hlog & Hsub).
    exists more. split; [done|]. by rewrite Hbuf in Hsub.
Qed.

(** ** The browser socket, the liveness flag and the clock *)

Lemma handle_fields e st :
  clientSocket (handle e st)
  = match e with
    | ClientClosing => CLOSING
    | ClientClose => CLOSED
    | _ => clientSocket st
    end
  ∧ alive (handle e st) = match e with ClientClose => false | _ => alive st end
  ∧ now (handle e st) = match e with Tick d => now st + d | _ => now st end.
Proof.
  destruct e as [d| | |s brk|s d|s|s m|s|c|d]; cbn [handle]; try done.
  - unfold onClientMessage. destruct (gateway_open st); [|done].
    by destruct (gateway_send_fields d st) as (-> & _ & _ & -> & _ & ->).
  - unfold onClientClose. cbn. by destruct (gatewaySocket st).
  - by destruct (onGatewayOpen_fields (on_socket s (λ _, mkWebSocket OPEN brk) st))
      as (-> & _ & _ & -> & _ & ->).
  - unfold onGatewayMessage. by case_bool_decide.
  - unfold onGatewayError.
    by destruct (sendStatus_fields ERROR m (on_socket s (set_readyState CLOSING) st))
      as (-> & _ & _ & -> & _ & _ & ->).
  - by destruct (onGatewayClose_fields (on_socket s (set_readyState CLOSED) st))
      as (-> & _ & _ & -> & -> & _).
  - by destruct (connectGateway_fields c (set_timers (tail (timers st)) st))
      as (-> & _ & -> & _ & -> & _).
Qed.

Lemma client_relayed_app l1 l2 :
  client_relayed (l1 ++ l2) = client_relayed l1 ++ client_relayed l2.
Proof. apply omap_app. Qed.

Lemma client_relayed_status state message st :
  client_relayed (status_effect state message st) = [].
Proof. unfold status_effect. by case_bool_decide. Qed.

Lemma client_relayed_flush g (fs : list string) :
  client_relayed (GatewaySend g <$> fs) = [].
Proof. by induction fs. Qed.

Lemma handle_relayed e st :
  client_relayed (log (handle e st))
  = client_relayed (log st)
      ++ (if bool_decide (clientSocket st = OPEN) then gateway_frames [e] else []).
Proof.
  destruct (handle_effects e st) as (l & -> & Hl). rewrite client_relayed_app. f_equal.
  destruct e as [d| | |s brk|s d|s|s m|s|c|d];
    try (destruct Hl as [-> _]; cbn [gateway_frames omap]).
  - destruct Hl as [(-> & _)|(g & -> & _)]; by case_bool_decide.
  - by case_bool_decide.
  - destruct (gatewaySocket st); by case_bool_decide.
  - destruct Hl as (more & _ & -> & _).
    rewrite client_relayed_app, client_relayed_status.
    destruct (gatewaySocket st); rewrite ?client_relayed_flush; by case_bool_decide.
  - by case_bool_decide.
  - by case_bool_decide.
  - rewrite client_relayed_status. by case_bool_decide.
  - rewrite client_relayed_app, client_relayed_status.
    destruct (alive st); by case_bool_decide.
  - destruct c; rewrite ?client_relayed_status; by case_bool_decide.
  - by case_bool_decide.
Qed.

(** Once the browser socket has stopped being open, no frame of the
    gateway is relayed any more. *)
Lemma relayed_closed st evs st' :
  clientSocket st ≠ OPEN → run st evs = Some st' →
  client_relayed (log st') = client_relayed (log st).
Proof.
  revert st. induction evs as [|e evs IH]; intros st Hcl; cbn [run].
  - by intros [= <-].
  - destruct (enabled st e) eqn:Hen; [|done]. intros Hrun.
    rewrite (IH (handle e st)); [|..|done].
    + rewrite handle_relayed, bool_decide_eq_false_2 by done. by rewrite app_nil_r.
    + destruct (handle_fields e st) as (-> & _). by destruct e.
Qed.

Lemma relayed_run st evs st' :
  clientSocket st = OPEN → run st evs = Some st' →
  client_relayed (log st')
  = client_relayed (log st) ++ gateway_frames (while_client_open evs).
Proof.
  revert st. induction evs as [|e evs IH]; intros st Hop; cbn [run].
  - intros [= <-]. by rewrite app_nil_r.
  - destruct (enabled st e) eqn:Hen; [|done]. intros Hrun.
    destruct (handle_fields e st) as (Hc & _).
    cbn [while_client_open]. destruct (leaves_client_open e) eqn:Hl.
    + rewrite (IH (handle e st)); [|by (destruct e; rewrite Hc)|done].
      rewrite handle_relayed, bool_decide_eq_true_2, <- app_assoc by done.
      f_equal. unfold gateway_frames. by destruct e.
    + rewrite (relayed_closed (handle e st) evs st'); [|by (destruct e; rewrite Hc)|done].
      rewrite handle_relayed. destruct e; try done; cbn; by case_bool_decide.
Qed.

(** C5.  A frame from the gateway is sent on to the browser socket at
    once and as it is when that socket is open, and otherwise the
    listener does nothing at all; so over a run the frames relayed to the
    browser are the frames the gateway sent up to the moment the browser
    socket stopped being open, in the order they came. *)
Theorem C5_gateway_frames_relayed t0 c evs st :
  bridge t0 c evs = Some st →
  client_relayed (log st) = gateway_frames (while_client_open evs)
  ∧ ∀ st0 s data,
      handle (GatewayMessage s data) st0
      = if bool_decide (clientSocket st0 = OPEN)
        then emit (ClientRelay data) st0
        else st0.
Proof.
  intros Hrun. split; [|done]. unfold bridge in Hrun.
  assert (clientSocket (onConnection t0 c) = OPEN) as Hopen.
  { unfold onConnection.
    by destruct (connectGateway_fields c (mkBridge OPEN None [] true [] [] t0 []))
      as (-> & _). }
  rewrite (relayed_run _ _ _ Hopen Hrun).
  unfold onConnection. destruct c as [|m]; cbn [connectGateway]; [done|].
  by rewrite sendStatus_log, client_relayed_app, client_relayed_status.
Qed.

(** ** Status notifications *)

Lemma status_effect_shaped state message st p :
  state ∈ STATES →
  ClientStatus p ∈ status_effect state message st →
  status_shaped (now st) (now st) p.
Proof.
  intros Hst. unfold status_effect. case_bool_decide; [|by intros ?%elem_of_nil].
  intros [= ->]%list_elem_of_singleton.
  exists state, message, (now st). split; [done|]. split; [done|lia].
Qed.

Lemma STATES_spec : CONNECTED ∈ STATES ∧ DISCONNECTED ∈ STATES ∧ ERROR ∈ STATES.
Proof. unfold STATES. repeat split; repeat constructor. Qed.

(** No status notification among effects of other kinds. *)
Ltac no_status H :=
  repeat (apply elem_of_cons in H as [H|H]; [discriminate H|]);
  by apply elem_of_nil in H.

Lemma handle_statuses e st p :
  ClientStatus p ∈ log (handle e st) →
  ClientStatus p ∈ log st ∨ status_shaped (now st) (now st) p.
Proof.
  destruct (handle_effects e st) as (l & -> & Hl).
  intros [Hin|Hin]%elem_of_app; [by left|right].
  destruct STATES_spec as (Hc & Hd & He).
  destruct e as [d| | |s brk|s d|s|s m|s|c|d];
    try (destruct Hl as [-> _]).
  - destruct Hl as [(-> & _)|(g & -> & _)]; no_status Hin.
  - no_status Hin.
  - destruct (gatewaySocket st); no_status Hin.
  - destruct Hl as (more & _ & -> & _).
    apply elem_of_app in Hin as [Hin|Hin];
      [exact (status_effect_shaped _ _ _ _ Hc Hin)|].
    destruct (gatewaySocket st); [|no_status Hin].
    by apply list_elem_of_fmap in Hin as (? & ? & _).
  - case_bool_decide; no_status Hin.
  - no_status Hin.
  - exact (status_effect_shaped _ _ _ _ He Hin).
  - apply elem_of_app in Hin as [Hin|Hin];
      [exact (status_effect_shaped _ _ _ _ Hd Hin)|].
    destruct (alive st); no_status Hin.
  - destruct c; [no_status Hin|exact (status_effect_shaped _ _ _ _ He Hin)].
  - no_status Hin.
Qed.

Lemma status_shaped_mono lo hi hi' p :
  hi <= hi' → status_shaped lo hi p → status_shaped lo hi' p.
Proof.
  intros Hle (state & message & ts & -> & Hst & Hts).
  exists state, message, ts. split; [done|]. split; [done|lia].
Qed.

Lemma statuses_run t0 st evs st' :
  t0 <= now st →
  (∀ p, ClientStatus p ∈ log st → status_shaped t0 (now st) p) →
  run st evs = Some st' →
  t0 <= now st' ∧ ∀ p, ClientStatus p ∈ log st' → status_shaped t0 (now st') p.
Proof.
  revert st. induction evs as [|e evs IH]; intros st Ht0 Hlog; cbn [run].
  - by intros [= <-].
  - destruct (enabled st e) eqn:Hen; [|done]. apply IH.
    + destruct (handle_fields e st) as (_ & _ & ->).
      destruct e; try done. cbn in Hen. apply bool_decide_eq_true in Hen. lia.
    + assert (now st <= now (handle e st)) as Hnow.
      { destruct (handle_fields e st) as (_ & _ & ->).
        destruct e; try lia. cbn in Hen. apply bool_decide_eq_true in Hen. lia. }
      intros p [Hin|(state & message & ts & -> & Hst & Hts)]%handle_statuses.
      * eapply status_shaped_mono; [exact Hnow|by apply Hlog].
      * exists state, message, ts. split; [done|]. split; [done|lia].
Qed.

(** C8.  Every status notification the bridge sends to the browser is
    [JSON.stringify] of an object with the four fields [type], [state],
    [message] and [ts], in this order: [type] is the string
    [__index_status], [state] is one of [connected], [disconnected] and
    [error], [message] is a string, and [ts] is a reading of the clock
    between the accept of the browser and the present. *)
Theorem C8_status_notification_shape t0 c evs st :
  bridge t0 c evs = Some st →
  ∀ p, ClientStatus p ∈ log st →
    ∃ state message ts,
      p = Json.stringify
            [("type", JString "__index_status"); ("state", JString state);
             ("message", JString message); ("ts", JNumber ts)]
      ∧ state ∈ ["connected"; "disconnected"; "error"]
      ∧ t0 <= ts <= now st.
Proof.
  intros Hrun. unfold bridge in Hrun.
  refine (proj2 (statuses_run t0 _ _ _ _ _ Hrun)).
  - unfold onConnection.
    destruct (connectGateway_fields c (mkBridge OPEN None [] true [] [] t0 []))
      as (_ & _ & _ & _ & -> & _). cbn. lia.
  - unfold onConnection. intros p Hin.
    destruct (connectGateway_fields c (mkBridge OPEN None [] true [] [] t0 []))
      as (_ & _ & _ & _ & -> & _).
    destruct c as [|m]; cbn [connectGateway] in Hin.
    + cbn in Hin. no_status Hin.
    + rewrite sendStatus_log in Hin. cbn [log] in Hin.
      apply elem_of_app in Hin as [Hin|Hin]; [no_status Hin|].
      exact (status_effect_shaped ERROR ("Cannot create socket: " +:+ m)
               (mkBridge OPEN None [] true [] [] t0 []) p
               (proj2 (proj2 STATES_spec)) Hin).
Qed.

(** ** Timers and reconnects *)

Lemma handle_timers e st :
  timers (handle e st)
  = match e with
    | GatewayClose _ =>
        timers st ++ (if alive st then [mkTimer (now st) RECONNECT_DELAY] else [])
    | Timeout _ => tail (timers st)
    | _ => timers st
    end.
Proof.
  destruct e as [d| | |s brk|s d|s|s m|s|c|d]; cbn [handle]; try done.
  - unfold onClientMessage. destruct (gateway_open st); [|done].
    by destruct (gateway_send_fields d st) as (_ & _ & _ & _ & -> & _).
  - unfold onClientClose. cbn. by destruct (gatewaySocket st).
  - by destruct (onGatewayOpen_fields (on_socket s (λ _, mkWebSocket OPEN brk) st))
      as (_ & _ & _ & _ & -> & _).
  - unfold onGatewayMessage. by case_bool_decide.
  - unfold onGatewayError.
    by destruct (sendStatus_fields ERROR m (on_socket s (set_readyState CLOSING) st))
      as (_ & _ & _ & _ & _ & -> & _).
  - by destruct (onGatewayClose_fields (on_socket s (set_readyState CLOSED) st))
      as (_ & _ & _ & _ & _ & _ & ->).
  - by destruct (connectGateway_fields c (set_timers (tail (timers st)) st))
      as (_ & _ & _ & -> & _).
Qed.

Lemma timeouts_set_app l1 l2 :
  timeouts_set (l1 ++ l2) = timeouts_set l1 ++ timeouts_set l2.
Proof. apply omap_app. Qed.

Lemma timeouts_set_status state message st :
  timeouts_set (status_effect state message st) = [].
Proof. unfold status_effect. by case_bool_decide. Qed.

Lemma timeouts_set_flush g (fs : list string) :
  timeouts_set (GatewaySend g <$> fs) = [].
Proof. by induction fs. Qed.

(** Timers are set by the close listener, with the one delay, and only
    while the liveness flag is up. *)
Lemma handle_timeouts_set e st :
  timeouts_set (log (handle e st))
  = timeouts_set (log st)
      ++ (if is_close_event e && alive st then [RECONNECT_DELAY] else []).
Proof.
  destruct (handle_effects e st) as (l & -> & Hl). rewrite timeouts_set_app. f_equal.
  destruct e as [d| | |s brk|s d|s|s m|s|c|d];
    try (destruct Hl as [-> _]; cbn [is_close_event andb]).
  - by destruct Hl as [(-> & _)|(g & -> & _)].
  - done.
  - by destruct (gatewaySocket st).
  - destruct Hl as (more & _ & -> & _).
    rewrite timeouts_set_app, timeouts_set_status.
    destruct (gatewaySocket st); by rewrite ?timeouts_set_flush.
  - by case_bool_decide.
  - done.
  - by rewrite timeouts_set_status.
  - rewrite timeouts_set_app, timeouts_set_status. by destruct (alive st).
  - destruct c; by rewrite ?timeouts_set_status.
  - done.
Qed.

Lemma clock_snoc t evs e :
  clock t (evs ++ [e]) = match e with Tick d => clock t evs + d | _ => clock t evs end.
Proof. unfold clock. by rewrite fold_left_app. Qed.

Lemma times_snoc p t evs e :
  times p t (evs ++ [e]) = times p t evs ++ (if p e then [clock t evs] else []).
Proof.
  revert t. induction evs as [|e' evs IH]; intros t; cbn.
  - by rewrite app_nil_r.
  - by rewrite IH, app_assoc.
Qed.

Lemma onConnection_fields t0 c :
  let st := onConnection t0 c in
  clientSocket st = OPEN ∧ buffer st = [] ∧ alive st = true
  ∧ timers st = [] ∧ now st = t0.
Proof.
  unfold onConnection.
  by destruct (connectGateway_fields c (mkBridge OPEN None [] true [] [] t0 []))
    as (-> & -> & -> & -> & -> & _).
Qed.

Lemma onConnection_timeouts_set t0 c : timeouts_set (log (onConnection t0 c)) = [].
Proof.
  unfold onConnection. destruct c as [|m]; cbn [connectGateway]; [done|].
  by rewrite sendStatus_log, timeouts_set_app, timeouts_set_status.
Qed.

(** The timer queue of a bridge whose browser has not closed: one timer
    per close event not yet answered by a timeout, each with the one
    delay, and every timeout so far no earlier than that delay after the
    close event it answers. *)
Lemma reconnect_run t0 c evs st :
  bridge t0 c evs = Some st →
  ClientClose ∉ evs →
  now st = clock t0 evs ∧ alive st = true
  ∧ timers st
    = (λ tc, mkTimer tc RECONNECT_DELAY)
        <$> drop (length (times is_timeout_event t0 evs)) (times is_close_event t0 evs)
  ∧ (length (times is_timeout_event t0 evs) ≤ length (times is_close_event t0 evs))%nat
  ∧ (∀ i tr, times is_timeout_event t0 evs !! i = Some tr →
       ∃ tc, times is_close_event t0 evs !! i = Some tc ∧ tc + RECONNECT_DELAY <= tr)
  ∧ timeouts_set (log st)
    = replicate (length (times is_close_event t0 evs)) RECONNECT_DELAY.
Proof.
  revert st. induction evs as [|e evs IH] using rev_ind; intros st Hrun Hnc.
  - injection Hrun as <-.
    destruct (onConnection_fields t0 c) as (_ & _ & -> & -> & ->).
    rewrite onConnection_timeouts_set. by cbn.
  - apply run_snoc in Hrun as (st1 & Hrun1 & Hen & ->).
    apply not_elem_of_app in Hnc as [Hnc He].
    apply not_elem_of_cons in He as [He _].
    destruct (IH st1 Hrun1 Hnc) as (Hnow & Halive & Htimers & Hlen & Hsep & Hset).
    destruct (handle_fields e st1) as (_ & Ha & Hn).
    rewrite !times_snoc, clock_snoc, handle_timers, handle_timeouts_set, Ha, Hn.
    set (closes := times is_close_event t0 evs) in *.
    set (retries := times is_timeout_event t0 evs) in *.
    destruct (is_close_event e) eqn:Hc; [|destruct (is_timeout_event e) eqn:Ht].
    + destruct e as [| | | | | | |s| |]; try done. cbn [is_timeout_event].
      rewrite !app_nil_r, Halive, length_app. cbn [length andb].
      split; [done|]. split; [done|]. split; [|split; [lia|split]].
      * rewrite drop_app_le by done. by rewrite fmap_app, Htimers, Hnow.
      * intros i tr Hi. destruct (Hsep i tr Hi) as (tc & Htc & Hle).
        exists tc. split; [|done]. rewrite lookup_app_l; [done|].
        by eapply lookup_lt_Some.
      * by rewrite Hset, Nat.add_1_r, replicate_S_end.
    + destruct e as [| | | | | | | |c'|]; try done. cbn [andb].
      rewrite !app_nil_r, length_app. cbn [length].
      cbn in Hen. destruct (timers st1) as [|t ts] eqn:Hts; [done|].
      apply bool_decide_eq_true in Hen.
      assert (∃ tc, closes !! length retries = Some tc ∧ t = mkTimer tc RECONNECT_DELAY)
        as (tc & Htc & ->).
      { destruct (closes !! length retries) as [tc|] eqn:E.
        - exists tc. split; [done|].
          rewrite (drop_S _ _ _ E), fmap_cons in Htimers. by injection Htimers.
        - apply lookup_ge_None in E. by rewrite drop_ge in Htimers. }
      cbn in Hen.
      split; [done|]. split; [done|]. split; [|split; [|split; [|done]]].
      * rewrite (drop_S _ _ _ Htc), fmap_cons in Htimers.
        injection Htimers as ->. cbn [tail]. by rewrite Nat.add_1_r.
      * apply lookup_lt_Some in Htc. lia.
      * intros i tr [[_ Hi]|[-> <-]]%lookup_snoc_Some; [by apply Hsep|].
        exists tc. split; [done|lia].
    + rewrite !app_nil_r.
      split; [by destruct e; rewrite ?Hnow|].
      split; [by destruct e|].
      split; [by destruct e|]. split; [done|]. split; [done|].
      by rewrite Hset.
Qed.

Lemma sockets_made_app l1 l2 :
  sockets_made (l1 ++ l2) = sockets_made l1 ++ sockets_made l2.
Proof. apply omap_app. Qed.

Lemma sockets_made_status state message st :
  sockets_made (status_effect state message st) = [].
Proof. unfold status_effect. by case_bool_decide. Qed.

Lemma sockets_made_flush g (fs : list string) :
  sockets_made (GatewaySend g <$> fs) = [].
Proof. by induction fs. Qed.

(** Sockets are constructed by timers running [connectGateway], one at
    most per timeout. *)
Lemma handle_sockets_made e st :
  (length (sockets_made (log (handle e st)))
   ≤ length (sockets_made (log st)) + (if is_timeout_event e then 1 else 0))%nat.
Proof.
  destruct (handle_effects e st) as (l & -> & Hl).
  rewrite sockets_made_app, length_app.
  enough (length (sockets_made l) ≤ if is_timeout_event e then 1 else 0)%nat by lia.
  destruct e as [d| | |s brk|s d|s|s m|s|c|d];
    try (destruct Hl as [-> _]; cbn [is_timeout_event]).
  - by destruct Hl as [(-> & _)|(g & -> & _)].
  - done.
  - by destruct (gatewaySocket st).
  - destruct Hl as (more & _ & -> & _).
    rewrite sockets_made_app, sockets_made_status.
    destruct (gatewaySocket st); by rewrite ?sockets_made_flush.
  - by case_bool_decide.
  - done.
  - by rewrite sockets_made_status.
  - rewrite sockets_made_app, sockets_made_status. by destruct (alive st).
  - destruct c; rewrite ?sockets_made_status; cbn; lia.
  - done.
Qed.

(** Every timer whose constructor call returns constructs one socket,
    and nothing else constructs one. *)
Lemma handle_sockets_made_exact e st :
  sockets_made (log (handle e st))
  = sockets_made (log st)
      ++ (if is_constructing_timeout e then [length (sockets st)] else []).
Proof.
  destruct (handle_effects e st) as (l & -> & Hl). rewrite sockets_made_app. f_equal.
  destruct e as [d| | |s brk|s d|s|s m|s|c|d];
    try (destruct Hl as [-> _]; cbn [is_constructing_timeout]).
  - by destruct Hl as [(-> & _)|(g & -> & _)].
  - done.
  - by destruct (gatewaySocket st).
  - destruct Hl as (more & _ & -> & _).
    rewrite sockets_made_app, sockets_made_status.
    destruct (gatewaySocket st); by rewrite ?sockets_made_flush.
  - by case_bool_decide.
  - done.
  - by rewrite sockets_made_status.
  - rewrite sockets_made_app, sockets_made_status. by destruct (alive st).
  - destruct c; by rewrite ?sockets_made_status.
  - done.
Qed.

Lemma onConnection_sockets_made t0 c :
  length (sockets_made (log (onConnection t0 c))) = first_sockets c.
Proof.
  unfold onConnection. destruct c as [|m]; cbn [connectGateway]; [done|].
  by rewrite sendStatus_log, sockets_made_app, sockets_made_status.
Qed.

(** The sockets of a run: those of the accept and one per timer whose
    constructor call returns. *)
Lemma sockets_made_run t0 c evs st :
  bridge t0 c evs = Some st →
  length (sockets_made (log st))
  = (first_sockets c + length (List.filter is_constructing_timeout evs))%nat.
Proof.
  revert st. induction evs as [|e evs IH] using rev_ind; intros st Hrun.
  - injection Hrun as <-. rewrite onConnection_sockets_made. cbn. lia.
  - apply run_snoc in Hrun as (st1 & Hrun1 & _ & ->).
    rewrite handle_sockets_made_exact, length_app, (IH st1 Hrun1).
    rewrite List.filter_app, length_app. cbn [List.filter].
    destruct (is_constructing_timeout e); cbn; lia.
Qed.

(** C3.  Take a run in which the browser has not closed.  Every timer
    the bridge has set has the delay [RECONNECT_DELAY], 3000 ms whatever
    came before, and there is one per close event of a gateway socket.
    Every reconnect attempt is a timer running [connectGateway]: the i-th
    attempt answers the i-th close event and happens no earlier than the
    delay after it, and the close events not yet answered are the timers
    pending, so N close events give N attempts.  At most one timer is
    pending, at most one gateway socket is not closed, and none while a
    timer is pending.  The liveness flag is still up, and whichever close
    event comes next sets the next timer, with the same delay.  Every
    attempt calls the constructor, however many came before: the sockets
    constructed are those of the accept and one per timer whose
    constructor call returned, and a timer that is due constructs a
    socket, which is connecting and is the current gateway socket, with
    no timer left. *)
Theorem C3_fixed_delay_reconnect t0 c evs st :
  bridge t0 c evs = Some st →
  ClientClose ∉ evs →
  let closes := times is_close_event t0 evs in
  let retries := times is_timeout_event t0 evs in
  RECONNECT_DELAY = 3000
  ∧ timeouts_set (log st) = replicate (length closes) RECONNECT_DELAY
  ∧ timers st = (λ tc, mkTimer tc RECONNECT_DELAY) <$> drop (length retries) closes
  ∧ (length retries + length (timers st) = length closes)%nat
  ∧ (∀ i tr, retries !! i = Some tr →
       ∃ tc, closes !! i = Some tc ∧ tc + RECONNECT_DELAY <= tr)
  ∧ (length (timers st) ≤ 1)%nat
  ∧ (∀ i j, socket_state i st ≠ CLOSED → socket_state j st ≠ CLOSED → i = j)
  ∧ (timers st ≠ [] → ∀ i, socket_state i st = CLOSED)
  ∧ alive st = true
  ∧ (∀ s, enabled st (GatewayClose s) = true →
       timers (handle (GatewayClose s) st) = [mkTimer (now st) RECONNECT_DELAY])
  ∧ length (sockets_made (log st))
    = (first_sockets c + length (List.filter is_constructing_timeout evs))%nat
  ∧ (let st' := handle (Timeout Constructed) st in
     log st' = log st ++ [GatewayNew (length (sockets st))]
     ∧ sockets_made (log st') = sockets_made (log st) ++ [length (sockets st)]
     ∧ gatewaySocket st' = Some (length (sockets st))
     ∧ socket_state (length (sockets st)) st' = CONNECTING
     ∧ timers st' = []).
Proof.
  intros Hrun Hnc closes retries.
  destruct (reconnect_run t0 c evs st Hrun Hnc) as (Hnow & Halive & Htimers & Hlen & Hsep & Hset).
  pose proof (Inv_bridge _ _ _ _ Hrun) as [Hoth Hidle Hone].
  fold closes retries in Htimers, Hlen, Hsep, Hset.
  split; [done|]. split; [done|]. split; [done|]. split.
  { rewrite Htimers, length_fmap, length_drop. lia. }
  split; [done|]. split; [done|]. split.
  { intros i j Hi Hj.
    destruct (decide (gatewaySocket st = Some i)) as [Hgi|Hgi]; [|by apply Hoth in Hgi].
    destruct (decide (gatewaySocket st = Some j)) as [Hgj|Hgj]; [|by apply Hoth in Hgj].
    congruence. }
  split; [done|]. split; [done|]. split.
  { intros s Hen. rewrite handle_timers, Halive.
    cbn in Hen. apply bool_decide_eq_true in Hen.
    destruct (timers st) as [|t ts] eqn:Hts; [done|].
    exfalso. apply Hen, Hidle. done. }
  split; [exact (sockets_made_run t0 c evs st Hrun)|].
  intros st'. subst st'.
  split; [done|]. split; [by rewrite handle_sockets_made_exact|].
  split; [done|]. split.
  - cbn [handle]. rewrite connectGateway_state. cbn. by rewrite decide_True.
  - rewrite handle_timers. destruct (timers st) as [|t [|t' ts]]; cbn in *; [done|done|lia].
Qed.

(** ** After the browser has closed *)

(** With the liveness flag down no timer is set any more: the queue only
    shrinks, by one per timeout. *)
Lemma dead_run st evs st' :
  alive st = false → run st evs = Some st' →
  alive st' = false
  ∧ timeouts_set (log st') = timeouts_set (log st)
  ∧ (count_timeouts evs + length (timers st')
     = length (timers st))%nat
  ∧ (length (sockets_made (log st'))
     ≤ length (sockets_made (log st)) + count_timeouts evs)%nat.
Proof.
  revert st. induction evs as [|e evs IH]; intros st Hdead; cbn [run].
  - intros [= <-]. unfold count_timeouts. cbn. split; [done|]. split; [done|]. split; lia.
  - destruct (enabled st e) eqn:Hen; [|done]. intros Hrun.
    destruct (handle_fields e st) as (_ & Ha & _).
    destruct (IH (handle e st)) as (Hd' & Hs' & Ht' & Hm'); [by destruct e; rewrite Ha|done|].
    pose proof (handle_sockets_made e st) as Hm.
    rewrite handle_timeouts_set, Hdead, andb_false_r, app_nil_r in Hs'.
    rewrite handle_timers, Hdead in Ht'.
    split; [done|]. split; [done|].
    unfold count_timeouts in *. destruct e; cbn in *;
      rewrite ?app_nil_r in Ht'; try (split; lia).
    destruct (timers st) as [|t ts]; [done|]. cbn in *. split; lia.
Qed.

Lemma client_closed_run st evs st' :
  clientSocket st = CLOSED → run st evs = Some st' →
  clientSocket st' = CLOSED ∧ ClientClose ∉ evs.
Proof.
  revert st. induction evs as [|e evs IH]; intros st Hcl; cbn [run].
  - intros [= <-]. split; [done|]. apply not_elem_of_nil.
  - destruct (enabled st e) eqn:Hen; [|done]. intros Hrun.
    destruct (handle_fields e st) as (Hc & _).
    assert (e ≠ ClientClosing ∧ e ≠ ClientClose) as [H1 H2].
    { split; intros ->; cbn in Hen; rewrite Hcl in Hen; by case_bool_decide. }
    destruct (IH (handle e st)) as [Hc' Hni]; [by destruct e; rewrite Hc|done|].
    split; [done|]. apply not_elem_of_cons. by split.
Qed.

Lemma client_open_run st evs st' :
  run st evs = Some st' → ClientClose ∈ evs → clientSocket st' = CLOSED.
Proof.
  revert st. induction evs as [|e evs IH]; intros st; cbn [run].
  - by intros _ ?%elem_of_nil.
  - destruct (enabled st e) eqn:Hen; [|done].
    intros Hrun [<-|Hin]%elem_of_cons; [|by eapply IH].
    eapply client_closed_run; [|done]. by destruct (handle_fields ClientClose st) as (-> & _).
Qed.

(** C10.  The run of a bridge through a close event of the browser
    socket.  The liveness flag is up until that event and down from it
    on, and the event happens once.  From it on no timer is set: every
    timeout after it takes one timer off the queue, and the queue holds at
    most one timer when the browser closes; so at most one timeout, and
    with it at most one socket construction, follows the close of the
    browser.  Before the close at most one timer is pending, too. *)
Theorem C10_liveness_flag_once t0 c pre post st :
  bridge t0 c (pre ++ ClientClose :: post) = Some st →
  ∃ st0 st1,
    bridge t0 c pre = Some st0 ∧ st1 = handle ClientClose st0
    ∧ run st1 post = Some st
    ∧ (ClientClose ∉ pre) ∧ (ClientClose ∉ post)
    ∧ alive st0 = true ∧ alive st1 = false ∧ alive st = false
    ∧ timers st1 = timers st0 ∧ (length (timers st1) ≤ 1)%nat
    ∧ timeouts_set (log st) = timeouts_set (log st1)
    ∧ (count_timeouts post + length (timers st)
       = length (timers st1))%nat
    ∧ (length (sockets_made (log st)) ≤ length (sockets_made (log st1)) + 1)%nat.
Proof.
  intros Hrun. unfold bridge in Hrun.
  change (pre ++ ClientClose :: post) with (pre ++ [ClientClose] ++ post) in Hrun.
  rewrite app_assoc, run_app in Hrun.
  destruct (run (onConnection t0 c) (pre ++ [ClientClose])) as [st1|] eqn:Hrun1; [|done].
  cbn in Hrun. apply run_snoc in Hrun1 as (st0 & Hrun0 & Hen & ->).
  exists st0, (handle ClientClose st0).
  destruct (handle_fields ClientClose st0) as (Hc1 & Ha1 & _).
  destruct (client_closed_run _ _ _ Hc1 Hrun) as [_ Hpost].
  assert (ClientClose ∉ pre) as Hpre.
  { intros Hin. pose proof (client_open_run _ _ _ Hrun0 Hin) as Hcl.
    cbn in Hen. rewrite Hcl in Hen. by case_bool_decide. }
  destruct (reconnect_run t0 c pre st0 Hrun0 Hpre) as (_ & Halive & _).
  destruct (dead_run _ _ _ Ha1 Hrun) as (Hd & Hs & Ht & Hm).
  pose proof (inv_one_timer _ (Inv_bridge _ _ _ _ Hrun0)) as Hone.
  pose proof (handle_timers ClientClose st0) as Htm. cbn beta iota in Htm.
  rewrite Htm in *. split_and!; try done. lia.
Qed.

(** ** Failed connect attempts *)

(** C6, as the code has it.  A connect attempt that fails after the
    socket was constructed (connection refused, handshake timeout) shows
    as an error event followed by the close event of the connecting
    socket.  With the browser socket open, the error listener sends a
    notification with state error and the close listener one with state
    disconnected; the timer queue ends up as after a close event alone,
    which is one timer with the reconnect delay while the liveness flag is
    up; the browser socket stays open and the liveness flag and the buffer
    are as before.  When the constructor throws, [connectGateway] sends a
    notification with state error and does nothing else: no timer, no
    socket, the browser socket and the liveness flag as before. *)
Theorem C6_failed_connect_reported t0 c evs st s message :
  bridge t0 c evs = Some st →
  clientSocket st = OPEN →
  socket_state s st = CONNECTING →
  (∃ st', run st [GatewayError s message; GatewayClose s] = Some st'
     ∧ log st'
       = log st
           ++ [ClientStatus (Json.stringify (status_object ERROR message (now st)));
               ClientStatus (Json.stringify
                 (status_object DISCONNECTED "Gateway closed — retrying in 3s" (now st)))]
           ++ (if alive st then [SetTimeout RECONNECT_DELAY] else [])
     ∧ timers st' = timers (handle (GatewayClose s) st)
     ∧ timers st' = (if alive st then [mkTimer (now st) RECONNECT_DELAY] else [])
     ∧ clientSocket st' = OPEN ∧ alive st' = alive st ∧ buffer st' = buffer st)
  ∧ (∀ m st0, clientSocket st0 = OPEN →
       let st' := connectGateway (Throws m) st0 in
       log st'
       = log st0
           ++ [ClientStatus (Json.stringify
                 (status_object ERROR ("Cannot create socket: " +:+ m) (now st0)))]
       ∧ timers st' = timers st0 ∧ sockets st' = sockets st0
       ∧ gatewaySocket st' = gatewaySocket st0
       ∧ clientSocket st' = OPEN ∧ alive st' = alive st0).
Proof.
  intros Hrun Hclient Hs. split.
  - pose proof (Inv_bridge _ _ _ _ Hrun) as HI.
    set (st1 := handle (GatewayError s message) st).
    assert (enabled st (GatewayError s message) = true) as Hen1.
    { cbn [enabled]. apply bool_decide_eq_true. congruence. }
    assert (socket_state s st1 = CLOSING) as Hs1.
    { unfold st1. cbn [handle]. unfold onGatewayError.
      rewrite socket_state_sendStatus, socket_state_set by congruence.
      by rewrite decide_True. }
    assert (enabled st1 (GatewayClose s) = true) as Hen2.
    { cbn [enabled]. apply bool_decide_eq_true. congruence. }
    exists (handle (GatewayClose s) st1). cbn [run]. rewrite Hen1. fold st1. rewrite Hen2.
    destruct (handle_fields (GatewayError s message) st) as (Hc1 & Ha1 & Hn1).
    destruct (handle_fields (GatewayClose s) st1) as (Hc2 & Ha2 & _).
    fold st1 in Hc1, Ha1, Hn1.
    destruct (handle_effects (GatewayError s message) st) as (l1 & Hl1 & -> & Hb1).
    destruct (handle_effects (GatewayClose s) st1) as (l2 & Hl2 & -> & Hb2).
    fold st1 in Hl1, Hb1.
    assert (timers st = []) as Htm.
    { destruct (timers st) as [|t ts] eqn:E; [done|].
      assert (socket_state s st = CLOSED) as Hcl
        by (apply (inv_timer_idle _ HI); by rewrite E).
      rewrite Hcl in Hs. done. }
    split; [done|]. split.
    { rewrite Hl2, Hl1, Ha1. unfold status_effect.
      rewrite Hc1, Hn1, !bool_decide_eq_true_2 by done.
      by rewrite <- !app_assoc. }
    pose proof (handle_timers (GatewayError s message) st) as Ht1.
    cbn beta iota in Ht1. fold st1 in Ht1.
    rewrite !handle_timers. cbn beta iota. rewrite Ha1, Hn1, Ht1, Htm.
    split_and!; try done; congruence.
  - intros m st0 Hc0 st'. unfold st'. cbn [connectGateway].
    rewrite sendStatus_log.
    destruct (sendStatus_fields ERROR ("Cannot create socket: " +:+ m) st0)
      as (-> & -> & _ & -> & -> & -> & _).
    unfold status_effect. by rewrite bool_decide_eq_true_2.
Qed.

(** ** More on the bridge: relaying, buffering, and what the browser is told *)

Lemma handle_client_statuses e st :
  client_statuses (log (handle e st))
  = client_statuses (log st)
      ++ (if bool_decide (clientSocket st = OPEN) then status_event (now st) e else []).
Proof.
  destruct (handle_effects e st) as (l & -> & Hl). rewrite client_statuses_app. f_equal.
  destruct e as [d| | |s brk|s d|s|s m|s|c|d];
    try (destruct Hl as [-> _]; cbn [status_event]).
  - destruct Hl as [(-> & _)|(g & -> & _)]; by case_bool_decide.
  - by case_bool_decide.
  - destruct (gatewaySocket st); by case_bool_decide.
  - destruct Hl as (more & _ & -> & _).
    rewrite client_statuses_app, client_statuses_status.
    destruct (gatewaySocket st); rewrite ?client_statuses_flush, app_nil_r;
      by case_bool_decide.
  - by case_bool_decide.
  - by case_bool_decide.
  - by rewrite client_statuses_status.
  - rewrite client_statuses_app, client_statuses_status.
    destruct (alive st); rewrite app_nil_r; by case_bool_decide.
  - destruct c; [by case_bool_decide|by rewrite client_statuses_status].
  - by case_bool_decide.
Qed.

Lemma client_not_open_handle e st :
  enabled st e = true → clientSocket st ≠ OPEN → clientSocket (handle e st) ≠ OPEN.
Proof.
  intros Hen Hcl. destruct (handle_fields e st) as (-> & _). by destruct e.
Qed.

(** Once the browser socket has stopped being open it gets no status
    notification any more. *)
Lemma statuses_closed st evs st' :
  clientSocket st ≠ OPEN → run st evs = Some st' →
  client_statuses (log st') = client_statuses (log st) ∧ clientSocket st' ≠ OPEN.
Proof.
  revert st. induction evs as [|e evs IH]; intros st Hcl; cbn [run].
  - by intros [= <-].
  - destruct (enabled st e) eqn:Hen; [|done]. intros Hrun.
    destruct (IH (handle e st)) as [-> Hcl']; [by apply client_not_open_handle|done|].
    split; [|done].
    rewrite handle_client_statuses, bool_decide_eq_false_2 by done. by rewrite app_nil_r.
Qed.

Lemma transcript_run st evs st' :
  clientSocket st = OPEN → run st evs = Some st' →
  client_statuses (log st')
  = client_statuses (log st) ++ transcript (now st) (while_client_open evs).
Proof.
  revert st. induction evs as [|e evs IH]; intros st Hop; cbn [run].
  - intros [= <-]. by rewrite app_nil_r.
  - destruct (enabled st e) eqn:Hen; [|done]. intros Hrun.
    destruct (handle_fields e st) as (Hc & _ & Hn).
    cbn [while_client_open]. destruct (leaves_client_open e) eqn:Hl.
    + rewrite (IH (handle e st)); [|by (destruct e; rewrite Hc)|done].
      rewrite handle_client_statuses, bool_decide_eq_true_2, <- app_assoc by done.
      cbn [transcript]. by rewrite Hn.
    + destruct (statuses_closed (handle e st) evs st') as [-> _];
        [by (destruct e; rewrite Hc)|done|].
      rewrite handle_client_statuses, bool_decide_eq_true_2 by done.
      by destruct e.
Qed.

(** X1.  In every state a bridge can reach, an open gateway socket means
    an empty buffer; a frame of the browser that arrives then is handed
    to that socket at once, nothing else happens, and the buffer stays
    empty. *)
Theorem X1_open_socket_relays_at_once t0 c evs st data :
  bridge t0 c evs = Some st →
  gateway_open st = true →
  buffer st = []
  ∧ ∃ g, gatewaySocket st = Some g ∧ socket_state g st = OPEN
      ∧ log (handle (ClientMessage data) st) = log st ++ [GatewaySend g data]
      ∧ buffer (handle (ClientMessage data) st) = [].
Proof.
  intros Hrun Hopen.
  pose proof (flushed_run _ _ _ (flushed_onConnection t0 c) Hrun Hopen) as Hbuf.
  split; [done|].
  destruct (handle_effects (ClientMessage data) st) as (l & Hlog & Hl).
  destruct Hl as [(_ & _ & Hclosed)|(g' & -> & Hb & _)]; [congruence|].
  unfold gateway_open in Hopen.
  destruct (gatewaySocket st) as [g|] eqn:Hg; [|done].
  rewrite socket_open_state in Hopen. apply bool_decide_eq_true in Hopen.
  exists g. split; [done|]. split; [done|]. split; [|congruence].
  rewrite Hlog. do 2 f_equal.
  cbn [handle] in Hlog. unfold onClientMessage, gateway_open in Hlog.
  rewrite Hg, socket_open_state, bool_decide_eq_true_2 in Hlog by done.
  unfold gateway_send in Hlog. rewrite Hg in Hlog. cbn in Hlog.
  apply app_inv_head in Hlog. congruence.
Qed.

(** X2.  From a state with no open gateway socket, and for as long as no
    socket opens, nothing is handed to a gateway socket and every frame of
    the browser is appended to the buffer: none is refused or dropped, and
    the buffer grows by one per frame, without a cap. *)
Theorem X2_buffer_takes_every_frame st mid st' :
  gateway_open st = false →
  no_open_event mid = true →
  run st mid = Some st' →
  gateway_sends (log st') = gateway_sends (log st)
  ∧ buffer st' = buffer st ++ client_frames mid
  ∧ length (buffer st') = (length (buffer st) + length (client_frames mid))%nat
  ∧ gateway_open st' = false.
Proof.
  intros Hclosed Hmid%no_open_event_Forall Hrun.
  destruct (buffering_run _ _ _ Hclosed Hmid Hrun) as (Hopen & Hs & Hb).
  split; [done|]. split; [done|]. split; [|done].
  by rewrite Hb, length_app.
Qed.

(** X3.  The browser socket never returns to the open state, and from
    the moment it has left it the bridge sends nothing to it: no relayed
    frame and no status notification, whatever the gateway sockets and the
    timers do. *)
Theorem X3_nothing_sent_to_a_closing_browser st evs st' :
  clientSocket st ≠ OPEN →
  run st evs = Some st' →
  clientSocket st' ≠ OPEN
  ∧ client_relayed (log st') = client_relayed (log st)
  ∧ client_statuses (log st') = client_statuses (log st).
Proof.
  intros Hcl Hrun. destruct (statuses_closed _ _ _ Hcl Hrun) as [Hs Hcl'].
  split; [done|]. split; [|done]. by apply (relayed_closed _ _ _ Hcl Hrun).
Qed.

(** X4.  While the browser socket is open, the status notifications are
    a transcript of what happens to the gateway sockets: one notification
    per open event (connected), per error event (error, with the message
    of the event), per close event (disconnected) and per constructor
    failure (error), in the order of the events, each stamped with the
    clock reading of its event, and no others. *)
Theorem X4_status_transcript t0 c evs st :
  bridge t0 c evs = Some st →
  client_statuses (log st)
  = match c with
    | Constructed => []
    | Throws message =>
        [Json.stringify (status_object ERROR ("Cannot create socket: " +:+ message) t0)]
    end ++ transcript t0 (while_client_open evs).
Proof.
  intros Hrun. unfold bridge in Hrun.
  destruct (onConnection_fields t0 c) as (Hopen & _ & _ & _ & Hnow).
  rewrite (transcript_run _ _ _ Hopen Hrun), Hnow. f_equal.
  unfold onConnection. destruct c as [|m]; cbn [connectGateway]; [done|].
  by rewrite sendStatus_log, client_statuses_app, client_statuses_status.
Qed.

Lemma gateway_shuts_app l1 l2 :
  gateway_shuts (l1 ++ l2) = gateway_shuts l1 ++ gateway_shuts l2.
Proof. apply omap_app. Qed.

Lemma gateway_shuts_status state message st :
  gateway_shuts (status_effect state message st) = [].
Proof. unfold status_effect. by case_bool_decide. Qed.

Lemma gateway_shuts_flush g (fs : list string) :
  gateway_shuts (GatewaySend g <$> fs) = [].
Proof. by induction fs. Qed.

Lemma handle_gateway_shuts e st :
  gateway_shuts (log (handle e st))
  = gateway_shuts (log st)
      ++ match e, gatewaySocket st with
         | ClientClose, Some g => [g]
         | _, _ => []
         end.
Proof.
  destruct (handle_effects e st) as (l & -> & Hl). rewrite gateway_shuts_app. f_equal.
  destruct e as [d| | |s brk|s d|s|s m|s|c|d]; try (destruct Hl as [-> _]).
  - by destruct Hl as [(-> & _)|(g & -> & _)].
  - done.
  - by destruct (gatewaySocket st).
  - destruct Hl as (more & _ & -> & _).
    rewrite gateway_shuts_app, gateway_shuts_status.
    destruct (gatewaySocket st); by rewrite ?gateway_shuts_flush.
  - by case_bool_decide.
  - done.
  - by rewrite gateway_shuts_status.
  - rewrite gateway_shuts_app, gateway_shuts_status. by destruct (alive st).
  - destruct c; by rewrite ?gateway_shuts_status.
  - done.
Qed.

Lemma shuts_run st evs st' :
  run st evs = Some st' → ClientClose ∉ evs →
  gateway_shuts (log st') = gateway_shuts (log st).
Proof.
  revert st. induction evs as [|e evs IH]; intros st; cbn [run].
  - by intros [= <-].
  - destruct (enabled st e); [|done].
    intros Hrun [He Hevs]%not_elem_of_cons.
    rewrite (IH _ Hrun Hevs), handle_gateway_shuts.
    destruct e; try done; by rewrite app_nil_r.
Qed.

(** X11.  The bridge calls [close] on a gateway socket only in the close
    listener of the browser socket: never while the browser has not
    closed, and at most once in the life of a bridge, so that a socket
    constructed after the browser has closed is never closed by the
    bridge. *)
Theorem X11_gateway_closed_only_with_browser t0 c evs st :
  bridge t0 c evs = Some st →
  (ClientClose ∉ evs → gateway_shuts (log st) = [])
  ∧ (length (gateway_shuts (log st)) ≤ 1)%nat.
Proof.
  intros Hrun.
  assert (gateway_shuts (log (onConnection t0 c)) = []) as Hinit.
  { unfold onConnection. destruct c as [|m]; cbn [connectGateway]; [done|].
    by rewrite sendStatus_log, gateway_shuts_app, gateway_shuts_status. }
  assert (ClientClose ∉ evs → gateway_shuts (log st) = []) as Hnone.
  { intros Hnc. unfold bridge in Hrun. by rewrite (shuts_run _ _ _ Hrun Hnc). }
  split; [done|].
  destruct (decide (ClientClose ∈ evs)) as [Hin|Hnc]; [|rewrite Hnone; [cbn; lia|done]].
  apply list_elem_of_split in Hin as (pre & post & ->).
  unfold bridge in Hrun.
  change (pre ++ ClientClose :: post) with (pre ++ [ClientClose] ++ post) in Hrun.
  rewrite app_assoc, run_app in Hrun.
  destruct (run (onConnection t0 c) (pre ++ [ClientClose])) as [st1|] eqn:Hrun1; [|done].
  cbn in Hrun. apply run_snoc in Hrun1 as (st0 & Hrun0 & Hen & ->).
  destruct (handle_fields ClientClose st0) as (Hc1 & _).
  destruct (client_closed_run _ _ _ Hc1 Hrun) as [_ Hpost].
  assert (ClientClose ∉ pre) as Hpre.
  { intros Hin. pose proof (client_open_run _ _ _ Hrun0 Hin) as Hcl.
    cbn in Hen. rewrite Hcl in Hen. by case_bool_decide. }
  rewrite (shuts_run _ _ _ Hrun Hpost), handle_gateway_shuts,
    (shuts_run _ _ _ Hrun0 Hpre), Hinit.
  destruct (gatewaySocket st0); cbn; lia.
Qed.

(** ** The REST proxy *)

Lemma prefix_drop p u :
  String.prefix p u = true → p +:+ string_drop (String.length p) u = u.
Proof.
  revert u. induction p as [|a p IH]; intros u Hp; [by destruct u|].
  destruct u as [|b u]; [done|]. cbn [String.prefix] in Hp.
  destruct (ascii_dec a b) as [<-|]; [|done].
  change (String a (p +:+ string_drop (String.length p) u) = String a u).
  f_equal. by apply IH.
Qed.

Lemma prefix_append p s : String.prefix p (p +:+ s) = true.
Proof.
  induction p as [|a p IH]; [by destruct s|].
  change (String.prefix (String a p) (String a (p +:+ s)) = true).
  cbn [String.prefix]. by destruct (ascii_dec a a).
Qed.

Lemma strip_api_url path : strip_api (App.api_url path) = path.
Proof. unfold strip_api, App.api_url. by rewrite prefix_append. Qed.

Lemma strip_api_prefix u : String.prefix "/api" u = true → "/api" +:+ strip_api u = u.
Proof. intros Hp. unfold strip_api. rewrite Hp. by apply (prefix_drop "/api"). Qed.

(** X5.  The proxy takes the prefix [/api] off the address once and
    hands the rest, query string and all, to the gateway: a request for
    [/api] followed by [rest] goes to [GATEWAY_HTTP] followed by [rest],
    with the method of the request, so that [api.get(path)] and
    [api.post(path, ..)] of the browser app reach [path] on the gateway.
    The call carries a body exactly for the methods POST, PUT and PATCH,
    and then it is [JSON.stringify(req.body)]. *)
Theorem X5_proxy_forwards_path {Doc} (JSON_stringify : Doc → string)
    (m path : string) (auth : option string) (b : Doc) :
  let call := proxy_fetch JSON_stringify (mkRequest m (App.api_url path) auth b) in
  strip_api (App.api_url path) = path
  ∧ fetch_url call = GATEWAY_HTTP +:+ path
  ∧ fetch_method call = m
  ∧ fetch_body call
    = (if bool_decide (m ∈ ["POST"; "PUT"; "PATCH"])
       then Some (JSON_stringify b) else None)
  ∧ ∀ u, String.prefix "/api" u = true → "/api" +:+ strip_api u = u.
Proof.
  pose proof (strip_api_url path) as Hstrip.
  cbn. rewrite Hstrip. split_and!; try done; [|apply strip_api_prefix].
  unfold has_body.
  destruct (String.eqb_spec m "POST") as [->|H1]; [done|].
  destruct (String.eqb_spec m "PUT") as [->|H2]; [done|].
  destruct (String.eqb_spec m "PATCH") as [->|H3]; [done|].
  cbn. rewrite bool_decide_eq_false_2; [done|].
  intros Hin. repeat (apply elem_of_cons in Hin as [Hin|Hin]; [done|]).
  by apply elem_of_nil in Hin.
Qed.

Lemma prefix_spec n s : String.prefix n s = true ↔ ∃ q, s = n +:+ q.
Proof.
  split.
  - intros Hp. exists (string_drop (String.length n) s). by rewrite prefix_drop.
  - intros [q ->]. apply prefix_append.
Qed.

Lemma includes_prefix n s : String.prefix n s = true → includes n s = true.
Proof. intros Hp. destruct s; cbn [includes]; by rewrite Hp. Qed.

(** [includes] finds the needle exactly when it occurs somewhere. *)
Lemma includes_spec n s : includes n s = true ↔ ∃ p q, s = p +:+ n +:+ q.
Proof.
  split.
  - induction s as [|a s IH]; cbn [includes].
    + rewrite orb_false_r. intros [q Hq]%prefix_spec. by exists "", q.
    + intros [[q Hq]%prefix_spec|Hs]%orb_true_iff; [by exists "", q|].
      destruct (IH Hs) as (p & q & ->). by exists (String a p), q.
  - intros (p & q & ->). induction p as [|a p IH].
    + apply includes_prefix. exact (prefix_append n q).
    + change (includes n (String a (p +:+ n +:+ q)) = true).
      cbn [includes]. by rewrite IH, orb_true_r.
Qed.

(** X6.  When the gateway answers the call the proxy made, the reply of
    the proxy is chosen by the content type of the answer: it is the
    parsed body, sent as JSON, exactly when the content type has
    [application/json] somewhere in it, with whatever parameters before
    or after; with any other content type, or none, it is the body as
    text.  The status is the status of the gateway, whatever it is,
    unless the body cannot be read in the way chosen, and then the reply
    is the fixed 502 reply of the [catch] branch. *)
Theorem X6_proxy_reply_by_content_type {Doc} (JSON_stringify : Doc → string)
    (gateway : FetchCall → Upstream Doc) (req : Request Doc)
    (status : Z) (contentType : option string)
    (json : option Doc) (text : option string) :
  gateway (proxy_fetch JSON_stringify req) = Responds status contentType json text →
  let reply := apiProxy JSON_stringify gateway req in
  let is_json := ∃ p q, contentType = Some (p +:+ "application/json" +:+ q) in
  (is_json → reply = from_option (ReplyJson status) (gateway_unreachable Doc) json)
  ∧ (¬ is_json → reply = from_option (ReplyText status) (gateway_unreachable Doc) text)
  ∧ (reply = gateway_unreachable Doc ∨ reply_status reply = status).
Proof.
  intros Hup reply is_json. subst reply is_json. unfold apiProxy. rewrite Hup.
  cbn [proxy_reply].
  set (ct := match contentType with Some ct => ct | None => "" end).
  assert (includes "application/json" ct = true
          ↔ ∃ p q, contentType = Some (p +:+ "application/json" +:+ q)) as Hct.
  { rewrite includes_spec. subst ct. destruct contentType as [ct|].
    - split; intros (p & q & H); exists p, q; congruence.
    - split; intros (p & q & H); [|done]. by destruct p. }
  destruct (includes "application/json" ct).
  - split; [by destruct json|]. split; [intros Hn; destruct Hn; by apply Hct|].
    destruct json; [by right|by left].
  - split; [intros Hj%Hct; done|]. split; [by destruct text|].
    destruct text; [by right|by left].
Qed.

End Connection.

(** ** The browser app *)

Lemma append_assoc (s1 s2 s3 : string) : (s1 +:+ s2) +:+ s3 = s1 +:+ (s2 +:+ s3).
Proof.
  induction s1 as [|a s1 IH]; [done|].
  change (String a ((s1 +:+ s2) +:+ s3) = String a (s1 +:+ (s2 +:+ s3))).
  by rewrite IH.
Qed.

Lemma append_cons a (s t : string) : String a s +:+ t = String a (s +:+ t).
Proof. done. Qed.

Lemma append_nil_l (t : string) : "" +:+ t = t.
Proof. done. Qed.

Lemma replace_all_app c r s1 s2 :
  App.replace_all c r (s1 +:+ s2) = App.replace_all c r s1 +:+ App.replace_all c r s2.
Proof.
  induction s1 as [|a s1 IH]; [done|].
  rewrite append_cons. cbn [App.replace_all]. by rewrite IH, append_assoc.
Qed.

Lemma replace_all_other c r a :
  a ≠ c → App.replace_all c r (String a "") = String a "".
Proof. intros Hne%Ascii.eqb_neq. cbn [App.replace_all]. by rewrite Hne. Qed.

(** [esc] works character by character. *)
Lemma esc_cons a s : App.esc (String a s) = App.esc_char a +:+ App.esc s.
Proof.
  unfold App.esc, App.esc_char. cbn [App.replace_all].
  rewrite !replace_all_app.
  destruct (Ascii.eqb_spec a "&") as [->|Hamp]; [done|].
  destruct (Ascii.eqb_spec a "<") as [->|Hlt]; [done|].
  destruct (Ascii.eqb_spec a ">") as [->|Hgt]; [done|].
  by rewrite (replace_all_other "<" _ a), (replace_all_other ">" _ a).
Qed.

Lemma esc_app s1 s2 : App.esc (s1 +:+ s2) = App.esc s1 +:+ App.esc s2.
Proof.
  induction s1 as [|a s1 IH]; [done|].
  by rewrite append_cons, !esc_cons, IH, append_assoc.
Qed.

Lemma has_char_app c s1 s2 :
  App.has_char c (s1 +:+ s2) = App.has_char c s1 || App.has_char c s2.
Proof.
  induction s1 as [|a s1 IH]; [done|].
  rewrite append_cons. cbn [App.has_char]. by rewrite IH, orb_assoc.
Qed.

Lemma has_char_esc_char c a :
  c = "<"%char ∨ c = ">"%char → App.has_char c (App.esc_char a) = false.
Proof.
  intros Hc. unfold App.esc_char.
  destruct (Ascii.eqb_spec a "&") as [->|Hamp]; [by destruct Hc as [->| ->]|].
  destruct (Ascii.eqb_spec a "<") as [->|Hlt]; [by destruct Hc as [->| ->]|].
  destruct (Ascii.eqb_spec a ">") as [->|Hgt]; [by destruct Hc as [->| ->]|].
  cbn [App.has_char]. rewrite orb_false_r. apply Ascii.eqb_neq.
  by destruct Hc as [->| ->].
Qed.

(** X7.  What [esc] returns holds neither [<] nor [>], whatever the
    text; and [esc] works character by character, so that it distributes
    over concatenation and a character is never escaped twice. *)
Theorem X7_esc_leaves_no_angle_bracket (s s' : string) :
  App.has_char "<" (App.esc s) = false
  ∧ App.has_char ">" (App.esc s) = false
  ∧ App.esc (s +:+ s') = App.esc s +:+ App.esc s'
  ∧ ∀ a, App.esc (String a s) = App.esc_char a +:+ App.esc s.
Proof.
  split_and!; [| |apply esc_app|intros a; apply esc_cons].
  - induction s as [|a s IH]; [done|].
    rewrite esc_cons, has_char_app, IH, has_char_esc_char; [done|by left].
  - induction s as [|a s IH]; [done|].
    rewrite esc_cons, has_char_app, IH, has_char_esc_char; [done|by right].
Qed.

Lemma esc_char_inj a1 a2 r1 r2 :
  App.esc_char a1 +:+ r1 = App.esc_char a2 +:+ r2 → a1 = a2 ∧ r1 = r2.
Proof.
  unfold App.esc_char.
  destruct (Ascii.eqb_spec a1 "&") as [->|Hamp1];
    [|destruct (Ascii.eqb_spec a1 "<") as [->|Hlt1];
      [|destruct (Ascii.eqb_spec a1 ">") as [->|Hgt1]]];
  (destruct (Ascii.eqb_spec a2 "&") as [->|Hamp2];
    [|destruct (Ascii.eqb_spec a2 "<") as [->|Hlt2];
      [|destruct (Ascii.eqb_spec a2 ">") as [->|Hgt2]]]);
  rewrite ?append_cons, ?append_nil_l; intros H;
  try discriminate H; try (injection H; intros; subst; done).
Qed.

Lemma esc_char_cons a : ∃ c r, App.esc_char a = String c r.
Proof.
  unfold App.esc_char.
  destruct (Ascii.eqb a "&"); [by eexists _, _|].
  destruct (Ascii.eqb a "<"); [by eexists _, _|].
  destruct (Ascii.eqb a ">"); by eexists _, _.
Qed.

(** X8.  [esc] loses nothing: two texts with the same escaped form are
    the same text. *)
Theorem X8_esc_injective (s1 s2 : string) : App.esc s1 = App.esc s2 → s1 = s2.
Proof.
  revert s2. induction s1 as [|a1 s1 IH]; intros [|a2 s2]; rewrite ?esc_cons.
  - done.
  - destruct (esc_char_cons a2) as (c & r & ->). intros H. discriminate H.
  - destruct (esc_char_cons a1) as (c & r & ->). intros H. discriminate H.
  - intros [-> Hr]%esc_char_inj. by rewrite (IH s2 Hr).
Qed.

Lemma trim_drop fuel (l : list App.LogLine) :
  (length l - App.LOG_LINES ≤ fuel)%nat →
  App.trim fuel l = drop (length l - App.LOG_LINES) l.
Proof.
  revert l. unfold App.LOG_LINES.
  induction fuel as [|fuel IH]; intros l Hfuel; cbn [App.trim].
  - by replace (length l - 80)%nat with 0%nat by lia.
  - unfold App.LOG_LINES. destruct (Nat.ltb_spec 80 (length l)) as [Hlt|Hge].
    + destruct l as [|x l]; [cbn in Hlt; lia|]. cbn [tail length] in *.
      rewrite IH by lia.
      by replace (S (length l) - 80)%nat with (S (length l - 80)) by lia.
    + by replace (length l - 80)%nat with 0%nat by lia.
Qed.

Lemma log_drop stamp msg type (children : list App.LogLine) :
  App.log stamp msg type children
  = drop (S (length children) - App.LOG_LINES)
      (children ++ [App.line_of (stamp, msg, type)]).
Proof.
  unfold App.log. rewrite trim_drop by lia.
  by rewrite length_app, Nat.add_1_r.
Qed.

Lemma logs_snoc calls call children :
  App.logs (calls ++ [call]) children
  = App.log call.1.1 call.1.2 call.2 (App.logs calls children).
Proof. unfold App.logs. by rewrite fold_left_app. Qed.

(** X9.  [log] appends its line and then keeps the last 80 lines: the
    element never holds more than 80 lines after a call, the line just
    logged is the last one, and starting from an empty element the lines
    shown are the last 80 calls, in the order of the calls. *)
Theorem X9_log_keeps_last_lines stamp msg type (children : list App.LogLine)
    (calls : list (string * string * string)) :
  let line := App.line_of (stamp, msg, type) in
  App.log stamp msg type children
  = drop (S (length children) - 80) (children ++ [line])
  ∧ (length (App.log stamp msg type children) ≤ 80)%nat
  ∧ last (App.log stamp msg type children) = Some line
  ∧ App.logs calls [] = drop (length calls - 80) (App.line_of <$> calls).
Proof.
  intros line. pose proof (log_drop stamp msg type children) as Hlog.
  unfold App.LOG_LINES in Hlog. fold line in Hlog.
  split; [done|]. split; [|split].
  - rewrite Hlog, length_drop, length_app. cbn. lia.
  - rewrite Hlog.
    destruct (decide (S (length children) - 80 ≤ length children)%nat) as [Hle|]; [|lia].
    rewrite drop_app_le by done. by rewrite last_snoc.
  - induction calls as [|call calls IH] using rev_ind; [done|].
    rewrite logs_snoc, IH, fmap_app, length_app.
    destruct call as [[st ms] ty]. cbn [fst snd length fmap list_fmap].
    rewrite log_drop. unfold App.LOG_LINES.
    rewrite length_drop, length_fmap.
    destruct (decide (length calls ≤ 80)%nat) as [Hle|Hgt].
    + replace (length calls - 80)%nat with 0%nat by lia.
      rewrite drop_0. f_equal. lia.
    + replace (S (length calls - (length calls - 80)) - 80)%nat with 1%nat by lia.
      rewrite !drop_app_le by (rewrite ?length_drop, ?length_fmap; lia).
      rewrite drop_drop. do 2 f_equal. lia.
Qed.

Lemma cpKey_items key p : App.items (App.cpKey key p).1 = App.items p.
Proof.
  unfold App.cpKey. repeat (destruct (String.eqb _ _); [try done|]); [|done].
  by destruct (App.item_at _ _).
Qed.

Lemma cpKey_focus key p :
  App.items p ≠ [] →
  0 <= App.cpFocused p < Z.of_nat (length (App.items p)) →
  0 <= App.cpFocused (App.cpKey key p).1 < Z.of_nat (length (App.items p)).
Proof.
  intros Hne Hf. unfold App.cpKey.
  destruct (String.eqb key "ArrowDown"); [cbn; lia|].
  destruct (String.eqb key "ArrowUp"); [cbn; lia|].
  destruct (String.eqb key "Enter"); [by destruct (App.item_at _ _)|].
  by destruct (String.eqb key "Escape").
Qed.

Lemma cpKeys_focus keys p :
  App.items p ≠ [] →
  0 <= App.cpFocused p < Z.of_nat (length (App.items p)) →
  App.items (App.cpKeys keys p) = App.items p
  ∧ 0 <= App.cpFocused (App.cpKeys keys p) < Z.of_nat (length (App.items p)).
Proof.
  revert p. induction keys as [|key keys IH]; intros p Hne Hf; [done|].
  unfold App.cpKeys. cbn [fold_left]. fold (App.cpKeys keys (App.cpKey key p).1).
  pose proof (cpKey_items key p) as Hi. pose proof (cpKey_focus key p Hne Hf) as Hf'.
  destruct (IH (App.cpKey key p).1) as [-> Hb]; rewrite ?Hi; try done.
  by rewrite Hi in Hb.
Qed.

(** X10.  After [renderCmdList] has filled the palette with a list of
    commands that is not empty, the focus index stays inside the list
    whatever keys are pressed, so Enter always runs a command of the list,
    the one the index points to, and closes the palette. *)
Theorem X10_palette_focus_in_range cmds keys p0 :
  cmds ≠ [] →
  let p := App.cpKeys keys (App.renderCmdList cmds p0) in
  App.items p = cmds
  ∧ 0 <= App.cpFocused p < Z.of_nat (length cmds)
  ∧ ∃ c, cmds !! Z.to_nat (App.cpFocused p) = Some c
      ∧ App.cpKey "Enter" p = (App.closeCmdPalette p, Some (App.cmd c)).
Proof.
  intros Hne p.
  destruct (cpKeys_focus keys (App.renderCmdList cmds p0)) as [Hi Hf]; [done| |].
  { cbn. destruct cmds; [done|]. cbn. lia. }
  fold p in Hi, Hf. cbn [App.renderCmdList App.items] in Hi, Hf.
  split; [done|]. split; [done|].
  destruct (lookup_lt_is_Some_2 cmds (Z.to_nat (App.cpFocused p))) as [c Hc]; [lia|].
  exists c. split; [done|].
  unfold App.cpKey, App.item_at. cbn [String.eqb Ascii.eqb Bool.eqb].
  rewrite Hi. destruct (Z.ltb_spec (App.cpFocused p) 0) as [|_]; [lia|].
  by rewrite Hc.
Qed.

(** C2, where the code departs from it.  When the browser closes while a
    reconnect timer is pending, the close listener leaves the timer in
    the queue; the timer runs [connectGateway] after the browser is gone,
    the socket it constructs opens and is handed the buffer, and nothing
    closes that socket: [gatewaySocket?.close()] ran once, on the socket
    that was closed already. *)
Theorem C2_pending_timer_outlives_browser :
  let st1 := final (bridge HOST PORT 0 Constructed (take 4 orphan)) in
  let st2 := final (bridge HOST PORT 0 Constructed orphan) in
  bridge HOST PORT 0 Constructed orphan = Some st2
  ∧ clientSocket st1 = CLOSED ∧ alive st1 = false
  ∧ timers st1 = [mkTimer 0 RECONNECT_DELAY]
  ∧ clientSocket st2 = CLOSED
  ∧ socket_state 1 st2 = OPEN
  ∧ sockets_made (log st2) = [0; 1]%nat
  ∧ gateway_sends (log st2) = [(1%nat, "late")]
  ∧ filter (λ e, e = GatewayShut 1) (log st2) = [].
Proof. vm_compute. by repeat split. Qed.

(** C6 as the specification has it fails when the constructor throws:
    the browser is told of the error, its socket is open and the liveness
    flag is up, but no timer is set and no socket exists, where a close
    event of a connecting socket leaves a timer behind. *)
Lemma C6_constructor_failure_not_retried :
  let st := onConnection 0 (Throws "Invalid URL") in
  let st' := final (bridge HOST PORT 0 Constructed [GatewayClose 0]) in
  clientSocket st = OPEN ∧ alive st = true
  ∧ length (client_statuses (log st)) = 1%nat
  ∧ timers st = [] ∧ timeouts_set (log st) = [] ∧ sockets st = []
  ∧ timers st' = [mkTimer 0 RECONNECT_DELAY].
Proof. vm_compute. by repeat split. Qed.

(** C7 as the specification has it fails when the browser socket is no
    longer open at the open event of the gateway socket: the frame the
    browser sent while the socket was connecting is handed to the gateway
    socket all the same, once, and the bridge has sent no notification to
    the browser, neither before nor after. *)
Theorem C7_frame_upstream_without_notification :
  let evs := [ClientMessage "ping"; ClientClosing; GatewayOpen 0 None] in
  let st := final (bridge HOST PORT 0 Constructed evs) in
  bridge HOST PORT 0 Constructed evs = Some st
  ∧ gateway_open (final (bridge HOST PORT 0 Constructed [])) = false
  ∧ gateway_sends (log st) = [(0%nat, "ping")]
  ∧ client_statuses (log st) = []
  ∧ log st = [GatewayNew 0; GatewaySend 0 "ping"].
Proof. vm_compute. by repeat split. Qed.

(** ** The theorems at concrete runs *)

Lemma C1_buffered_frames_flushed_in_order_witness :
  let evs := [GatewayOpen 0 None; ClientMessage "a"; GatewayClose 0; ClientMessage "b"] in
  let mid := [Tick 3000; Timeout Constructed; ClientMessage "c"; Tick 20] in
  let st := final (bridge HOST PORT 0 Constructed evs) in
  let st' := final (run HOST PORT st (mid ++ [GatewayOpen 1 None])) in
  (steady evs = true ∧ bridge HOST PORT 0 Constructed evs = Some st
   ∧ gateway_open st = false ∧ no_open_event mid = true
   ∧ run HOST PORT st (mid ++ [GatewayOpen 1 None]) = Some st')
  ∧ gateway_sends (log st')
    = gateway_sends (log st) ++ ((1%nat,.) <$> (buffer st ++ client_frames mid))
  ∧ buffer st' = []
  ∧ gateway_sent (log st) ++ buffer st = client_frames evs
  ∧ gateway_sent (log st') = client_frames (evs ++ mid).
Proof.
  intros evs mid st st'. split; [by vm_compute|].
  apply (C1_buffered_frames_flushed_in_order HOST PORT 0 Constructed evs st mid 1 st');
    by vm_compute.
Defined.

Lemma C3_fixed_delay_reconnect_witness :
  let evs := [GatewayOpen 0 None; Tick 10; GatewayClose 0; Tick 3000;
              Timeout Constructed; GatewayError 1 "ECONNREFUSED"; GatewayClose 1;
              Tick 3005; Timeout Constructed; Tick 1; GatewayClose 2] in
  let st := final (bridge HOST PORT 0 Constructed evs) in
  (bridge HOST PORT 0 Constructed evs = Some st ∧ ClientClose ∉ evs)
  ∧ times is_close_event 0 evs = [10; 3010; 6016]
  ∧ times is_timeout_event 0 evs = [3010; 6015]
  ∧ timers st = [mkTimer 6016 3000]
  ∧ alive st = true
  ∧ length (sockets_made (log st)) = 3%nat.
Proof.
  intros evs st.
  assert (bridge HOST PORT 0 Constructed evs = Some st) as Hrun by (by vm_compute).
  assert (ClientClose ∉ evs) as Hnc by (apply (bool_decide_unpack _); by vm_compute).
  split; [done|].
  pose proof (C3_fixed_delay_reconnect HOST PORT 0 Constructed evs st Hrun Hnc)
    as (_ & _ & Htimers & _ & _ & _ & _ & _ & Halive & _ & Hmade & _).
  split; [by vm_compute|]. split; [by vm_compute|].
  split; [rewrite Htimers; by vm_compute|]. split; [done|].
  rewrite Hmade. by vm_compute.
Defined.

Lemma C4_status_never_upstream_witness :
  let evs := early_ping ++ [GatewayOpen 0 None; GatewayError 0 "reset"; GatewayClose 0] in
  let st := final (bridge HOST PORT 0 Constructed evs) in
  bridge HOST PORT 0 Constructed evs = Some st
  ∧ length (client_statuses (log st)) = 3%nat
  ∧ gateway_sent (log st) ⊆+ client_frames evs
  ∧ ∀ s d, GatewaySend s d ∈ log st → d ∈ client_frames evs.
Proof.
  intros evs st.
  assert (bridge HOST PORT 0 Constructed evs = Some st) as Hrun by (by vm_compute).
  split; [done|]. split; [by vm_compute|].
  pose proof (C4_status_never_upstream HOST PORT 0 Constructed evs st Hrun)
    as (Hsub & Hin & _).
  by split.
Defined.

Lemma C5_gateway_frames_relayed_witness :
  let evs := [GatewayOpen 0 None; GatewayMessage 0 "x"; GatewayMessage 0 "y";
              ClientClosing; GatewayMessage 0 "z"] in
  let st := final (bridge HOST PORT 0 Constructed evs) in
  bridge HOST PORT 0 Constructed evs = Some st
  ∧ client_relayed (log st) = ["x"; "y"].
Proof.
  intros evs st.
  assert (bridge HOST PORT 0 Constructed evs = Some st) as Hrun by (by vm_compute).
  split; [done|].
  by rewrite (proj1 (C5_gateway_frames_relayed HOST PORT 0 Constructed evs st Hrun)).
Defined.

Lemma C6_failed_connect_reported_witness :
  let st := final (bridge HOST PORT 0 Constructed [Tick 5000]) in
  (bridge HOST PORT 0 Constructed [Tick 5000] = Some st
   ∧ clientSocket st = OPEN ∧ socket_state 0 st = CONNECTING)
  ∧ ∃ st',
      run HOST PORT st [GatewayError 0 "Opening handshake has timed out"; GatewayClose 0]
      = Some st'
      ∧ timers st' = [mkTimer 5000 RECONNECT_DELAY]
      ∧ clientSocket st' = OPEN ∧ alive st' = true.
Proof.
  intros st.
  assert (bridge HOST PORT 0 Constructed [Tick 5000] = Some st) as Hrun by (by vm_compute).
  assert (clientSocket st = OPEN) as Hc by (by vm_compute).
  assert (socket_state 0 st = CONNECTING) as Hs by (by vm_compute).
  split; [done|].
  destruct (C6_failed_connect_reported HOST PORT 0 Constructed [Tick 5000] st 0%nat
              "Opening handshake has timed out" Hrun Hc Hs)
    as [(st' & Hrun' & _ & _ & Htimers & Hclient & Halive & _) _].
  exists st'. split; [done|]. split; [done|]. split; [done|]. by rewrite Halive.
Defined.

Lemma C7_frame_once_after_connected_witness :
  let st0 := final (bridge HOST PORT 0 Constructed []) in
  let st1 := final (run HOST PORT st0 early_ping) in
  let st2 := handle HOST PORT (GatewayOpen 0 None) st1 in
  let connected :=
    Json.stringify
      [("type", JString "__index_status"); ("state", JString "connected");
       ("message", JString "Gateway live at ws://127.0.0.1:18789");
       ("ts", JNumber 50)] in
  (bridge HOST PORT 0 Constructed [] = Some st0 ∧ gateway_open st0 = false
   ∧ no_open_event [Tick 50] = true ∧ run HOST PORT st0 early_ping = Some st1
   ∧ enabled st1 (GatewayOpen 0 None) = true)
  ∧ clientSocket st1 = OPEN
  ∧ gateway_sends (log st1) = []
  ∧ drop 1 (log st2) = [ClientStatus connected; GatewaySend 0 "ping"]
  ∧ client_statuses (log st2) = [connected]
  ∧ gateway_sends (log st2) = [(0%nat, "ping")]
  ∧ buffer st2 = [].
Proof.
  intros st0 st1 st2 connected.
  assert (bridge HOST PORT 0 Constructed [] = Some st0) as H1 by (by vm_compute).
  assert (gateway_open st0 = false) as H2 by (by vm_compute).
  assert (no_open_event [Tick 50] = true) as H3 by (by vm_compute).
  assert (run HOST PORT st0 early_ping = Some st1) as H4 by (by vm_compute).
  assert (clientSocket st1 = OPEN) as H5 by (by vm_compute).
  assert (enabled st1 (GatewayOpen 0 None) = true) as H6 by (by vm_compute).
  split; [done|]. split; [done|].
  pose proof (C7_frame_once_after_connected HOST PORT 0 Constructed [] st0
                "ping" [Tick 50] st1 0%nat H1 H2 H3 H4 H6) as HC7.
  cbv zeta in HC7. destruct HC7 as (Hs & Hlog & Hopen & _ & Hsends & Hbuf & _).
  split; [exact Hs|].
  split; [fold st2 in Hlog; rewrite Hlog; by vm_compute|].
  split; [fold st2 in Hopen; rewrite (Hopen H5); by vm_compute|].
  split; [fold st2 in Hsends; rewrite Hsends; by vm_compute|].
  exact Hbuf.
Defined.

Lemma C8_status_notification_shape_witness :
  let evs := early_ping ++ [GatewayOpen 0 None; GatewayError 0 "reset"; GatewayClose 0] in
  let st := final (bridge HOST PORT 0 Constructed evs) in
  bridge HOST PORT 0 Constructed evs = Some st
  ∧ length (client_statuses (log st)) = 3%nat
  ∧ ∀ p, ClientStatus p ∈ log st →
      ∃ state message ts,
        p = Json.stringify
              [("type", JString "__index_status"); ("state", JString state);
               ("message", JString message); ("ts", JNumber ts)]
        ∧ state ∈ ["connected"; "disconnected"; "error"]
        ∧ 0 <= ts <= now st.
Proof.
  intros evs st.
  assert (bridge HOST PORT 0 Constructed evs = Some st) as Hrun by (by vm_compute).
  split; [done|]. split; [by vm_compute|].
  exact (C8_status_notification_shape HOST PORT 0 Constructed evs st Hrun).
Defined.

Lemma C9_interrupted_flush_loses_frames_witness :
  let evs := [ClientMessage "a"; ClientMessage "b"; ClientMessage "c"] in
  let st := final (bridge HOST PORT 0 Constructed evs) in
  let st' := handle HOST PORT (GatewayOpen 0 (Some 2%nat)) st in
  (bridge HOST PORT 0 Constructed evs = Some st
   ∧ enabled st (GatewayOpen 0 (Some 2%nat)) = true
   ∧ (2 < length (buffer st))%nat)
  ∧ gateway_sends (log st') = [(0%nat, "a"); (0%nat, "b")]
  ∧ buffer st' = []
  ∧ socket_state 0 st' = CLOSING.
Proof.
  intros evs st st'.
  assert (bridge HOST PORT 0 Constructed evs = Some st) as Hrun by (by vm_compute).
  assert (enabled st (GatewayOpen 0 (Some 2%nat)) = true) as Hen by (by vm_compute).
  assert (2 < length (buffer st))%nat as Hk by (vm_compute; lia).
  split; [done|].
  destruct (C9_interrupted_flush_loses_frames HOST PORT 0 Constructed evs st 0%nat 1%nat
              Hrun Hen Hk) as (Hsends & _ & Hbuf & Hstate & _).
  fold st' in Hsends, Hbuf, Hstate.
  split; [|by split]. rewrite Hsends. by vm_compute.
Defined.

Lemma C10_liveness_flag_once_witness :
  let pre := take 3 orphan in
  let post := drop 4 orphan in
  let st := final (bridge HOST PORT 0 Constructed orphan) in
  bridge HOST PORT 0 Constructed (pre ++ ClientClose :: post) = Some st
  ∧ alive st = false
  ∧ count_timeouts post = 1%nat
  ∧ timers st = []
  ∧ timeouts_set (log st) = [RECONNECT_DELAY].
Proof.
  intros pre post st.
  assert (bridge HOST PORT 0 Constructed (pre ++ ClientClose :: post) = Some st)
    as Hrun by (by vm_compute).
  split; [done|].
  destruct (C10_liveness_flag_once HOST PORT 0 Constructed pre post st Hrun)
    as (st0 & st1 & _ & _ & _ & _ & _ & _ & _ & Hdead & _).
  split; [done|]. by vm_compute.
Defined.

(** ** More theorems at concrete runs *)

Lemma X1_open_socket_relays_at_once_witness :
  let evs := early_ping ++ [GatewayOpen 0 None] in
  let st := final (bridge HOST PORT 0 Constructed evs) in
  (bridge HOST PORT 0 Constructed evs = Some st ∧ gateway_open st = true)
  ∧ buffer st = []
  ∧ log (handle HOST PORT (ClientMessage "hello") st) = log st ++ [GatewaySend 0 "hello"].
Proof.
  intros evs st.
  assert (bridge HOST PORT 0 Constructed evs = Some st) as Hrun by (by vm_compute).
  assert (gateway_open st = true) as Hopen by (by vm_compute).
  split; [done|].
  destruct (X1_open_socket_relays_at_once HOST PORT 0 Constructed evs st "hello" Hrun Hopen)
    as (Hbuf & g & Hg & _ & Hlog & _).
  split; [done|]. rewrite Hlog. do 3 f_equal.
  assert (gatewaySocket st = Some 0%nat) as Hg0 by (by vm_compute). congruence.
Defined.

Lemma X2_buffer_takes_every_frame_witness :
  let st := final (bridge HOST PORT 0 Constructed []) in
  let mid := [ClientMessage "a"; Tick 5; ClientMessage "b"; GatewayClose 0;
              ClientMessage "c"] in
  let st' := final (run HOST PORT st mid) in
  (gateway_open st = false ∧ no_open_event mid = true
   ∧ run HOST PORT st mid = Some st')
  ∧ gateway_sends (log st') = gateway_sends (log st)
  ∧ buffer st' = buffer st ++ ["a"; "b"; "c"].
Proof.
  intros st mid st'.
  assert (gateway_open st = false) as H1 by (by vm_compute).
  assert (no_open_event mid = true) as H2 by (by vm_compute).
  assert (run HOST PORT st mid = Some st') as H3 by (by vm_compute).
  split; [done|].
  destruct (X2_buffer_takes_every_frame HOST PORT st mid st' H1 H2 H3) as (Hs & Hb & _).
  by split.
Defined.

Lemma X3_nothing_sent_to_a_closing_browser_witness :
  let st := final (bridge HOST PORT 0 Constructed [GatewayOpen 0 None; ClientClosing]) in
  let evs := [GatewayMessage 0 "x"; GatewayError 0 "reset"; GatewayClose 0; ClientClose] in
  let st' := final (run HOST PORT st evs) in
  (clientSocket st ≠ OPEN ∧ run HOST PORT st evs = Some st')
  ∧ client_relayed (log st') = client_relayed (log st)
  ∧ client_statuses (log st') = client_statuses (log st).
Proof.
  intros st evs st'.
  assert (clientSocket st ≠ OPEN) as H1 by (by vm_compute).
  assert (run HOST PORT st evs = Some st') as H2 by (by vm_compute).
  split; [done|].
  destruct (X3_nothing_sent_to_a_closing_browser HOST PORT st evs st' H1 H2)
    as (_ & Hr & Hs).
  by split.
Defined.

Lemma X4_status_transcript_witness :
  let evs := [Tick 5; GatewayOpen 0 None; Tick 7; GatewayError 0 "reset";
              GatewayClose 0; ClientClose; Tick 3000; Timeout (Throws "late")] in
  let st := final (bridge HOST PORT 0 Constructed evs) in
  bridge HOST PORT 0 Constructed evs = Some st
  ∧ client_statuses (log st)
    = [Json.stringify
         (status_object "connected" "Gateway live at ws://127.0.0.1:18789" 5);
       Json.stringify (status_object "error" "reset" 12);
       Json.stringify
         (status_object "disconnected" "Gateway closed — retrying in 3s" 12)].
Proof.
  intros evs st.
  assert (bridge HOST PORT 0 Constructed evs = Some st) as Hrun by (by vm_compute).
  split; [done|].
  rewrite (X4_status_transcript HOST PORT 0 Constructed evs st Hrun). by vm_compute.
Defined.

Lemma X8_esc_injective_witness :
  App.esc "a<b & c" = App.esc "a<b & c" ∧ App.esc "a<b & c" = "a&lt;b &amp; c".
Proof.
  split; [|by vm_compute].
  exact (f_equal App.esc (X8_esc_injective "a<b & c" "a<b & c" eq_refl)).
Defined.

Lemma X10_palette_focus_in_range_witness :
  let cmds := [App.mkCommand "/status" "Show session status, model, tokens, cost";
               App.mkCommand "/new" "Reset the session"] in
  let keys := ["ArrowDown"; "ArrowDown"; "x"; "ArrowUp"; "ArrowDown"] in
  let p := App.cpKeys keys (App.renderCmdList cmds (App.mkPalette 7 [] true)) in
  cmds ≠ []
  ∧ App.cpFocused p = 1
  ∧ 0 <= App.cpFocused p < 2
  ∧ App.cpKey "Enter" p = (App.closeCmdPalette p, Some "/new").
Proof.
  intros cmds keys p.
  assert (cmds ≠ []) as Hne by done.
  split; [done|]. split; [by vm_compute|].
  destruct (X10_palette_focus_in_range cmds keys (App.mkPalette 7 [] true) Hne)
    as (_ & Hf & _).
  split; [exact Hf|]. by vm_compute.
Defined.

Lemma X11_gateway_closed_only_with_browser_witness :
  let st := final (bridge HOST PORT 0 Constructed orphan) in
  bridge HOST PORT 0 Constructed orphan = Some st
  ∧ gateway_shuts (log st) = [0%nat]
  ∧ (length (gateway_shuts (log st)) ≤ 1)%nat.
Proof.
  intros st.
  assert (bridge HOST PORT 0 Constructed orphan = Some st) as Hrun by (by vm_compute).
  split; [done|]. split; [by vm_compute|].
  exact (proj2 (X11_gateway_closed_only_with_browser HOST PORT 0 Constructed orphan st Hrun)).
Defined.

Lemma X6_proxy_reply_by_content_type_witness :
  let answer :=
    Responds string 404 (Some "application/json; charset=utf-8") (Some "{}") None in
  let gateway := fun _ : FetchCall => answer in
  let req := mkRequest string "GET" "/api/sessions" None "" in
  gateway (proxy_fetch HOST PORT string id req) = answer
  ∧ apiProxy HOST PORT string id gateway req = ReplyJson string 404 "{}".
Proof.
  intros answer gateway req. split; [done|].
  apply (X6_proxy_reply_by_content_type HOST PORT id gateway req 404
           (Some "application/json; charset=utf-8") (Some "{}") None eq_refl).
  by exists "", "; charset=utf-8".
Defined.
